(** * ical.py: week-window selection, recurrence expansion and rendering

    A shallow embedding of [ical.py] (the Outlook calendar weekly
    extractor) together with the properties of its window filter, its
    recurrence expansion and its Markdown rendering.

    Layout: strings ([in], [split], [strip]), the [datetime] values of
    Python, the exception/state monad in which the script runs, the
    external collaborators (HTTP, the icalendar decoder, dateutil's rule
    engine, the clock, the file system), then the functions of the script
    in source order, and finally the theorems. *)

From Stdlib Require Import ZArith List String Ascii Bool Lia Sorted Permutation.
Import ListNotations.
Local Open Scope string_scope.
Local Open Scope Z_scope.

(* ===================================================================== *)
(** ** Strings *)
(* ===================================================================== *)

Module Str.

(** [s.startswith(p)] *)
Fixpoint startswith (p s : string) : bool :=
  match p, s with
  | EmptyString, _ => true
  | String a p', String b s' => Ascii.eqb a b && startswith p' s'
  | String _ _, EmptyString => false
  end.

(** [p in s] *)
Fixpoint contains (p s : string) : bool :=
  startswith p s ||
  match s with
  | EmptyString => false
  | String _ s' => contains p s'
  end.

(** [s.split(sep)] for a non-empty [sep]: the result is never empty, so it
    is computed as its first segment and the list of the following ones.
    [skip] counts the characters of a matched separator still to drop. *)
Fixpoint split_go (sep s : string) (skip : nat) : string * list string :=
  match s with
  | EmptyString => (EmptyString, [])
  | String c s' =>
      match skip with
      | S k => split_go sep s' k
      | O =>
          if startswith sep s
          then (EmptyString,
                let (h, t) := split_go sep s' (Nat.pred (String.length sep)) in
                h :: t)
          else let (h, t) := split_go sep s' O in (String c h, t)
      end
  end.

Definition split (sep s : string) : list string :=
  let (h, t) := split_go sep s O in h :: t.

(** [sep.join(l)] *)
Fixpoint join (sep : string) (l : list string) : string :=
  match l with
  | [] => EmptyString
  | [x] => x
  | x :: l' => x ++ sep ++ join sep l'
  end.

(** The characters [str.strip()] removes, among the ASCII ones. *)
Definition isspace (c : ascii) : bool :=
  let n := nat_of_ascii c in
  ((9 <=? n) && (n <=? 13) || (28 <=? n) && (n <=? 32))%nat.

Fixpoint lstrip (s : string) : string :=
  match s with
  | EmptyString => EmptyString
  | String c s' => if isspace c then lstrip s' else s
  end.

Fixpoint rstrip (s : string) : string :=
  match s with
  | EmptyString => EmptyString
  | String c s' =>
      match rstrip s' with
      | EmptyString => if isspace c then EmptyString else String c EmptyString
      | r => String c r
      end
  end.

Definition strip (s : string) : string := rstrip (lstrip s).

(** The decimal text of a non-negative number, and the same padded with
    zeros to [width] digits, as [%02d] and [%04d] print it. *)
Definition digit (n : Z) : ascii := ascii_of_nat (48 + Z.to_nat (n mod 10)).

Fixpoint digits (fuel : nat) (n : Z) (acc : string) : string :=
  match fuel with
  | O => acc
  | S f =>
      let acc' := String (digit n) acc in
      if n / 10 =? 0 then acc' else digits f (n / 10) acc'
  end.

Definition decimal (n : Z) : string := digits (S (Z.to_nat (Z.log2 n))) n EmptyString.

Fixpoint zeros (k : nat) : string :=
  match k with O => EmptyString | S k' => String "0" (zeros k') end.

Definition zfill (width : nat) (n : Z) : string :=
  let d := decimal n in zeros (width - String.length d) ++ d.

End Str.

(* ===================================================================== *)
(** ** Dates, date-times and durations *)
(* ===================================================================== *)

(** A [datetime.timedelta]: a signed number of microseconds. *)
Definition timedelta := Z.

Definition US_PER_SECOND : Z := 1000000.
Definition US_PER_MINUTE : Z := 60 * US_PER_SECOND.
Definition US_PER_HOUR : Z := 60 * US_PER_MINUTE.
Definition US_PER_DAY : Z := 24 * US_PER_HOUR.

(** [date.min.toordinal()] and [date.max.toordinal()]: 0001-01-01 and
    9999-12-31 in the proleptic Gregorian ordinal. *)
Definition MINORDINAL : Z := 1.
Definition MAXORDINAL : Z := 3652059.

(** A [datetime.datetime]. The calendar and clock fields are kept as one
    number, the microseconds of the wall clock counted from midnight of
    ordinal 0, so that [wall / US_PER_DAY] is [toordinal()] and
    [wall mod US_PER_DAY] is the time of day. [tzinfo] is [None] for a naive
    value and otherwise the offset from UTC, in microseconds, that the zone
    has at that value; two aware values are compared and subtracted as the
    instants [wall - offset]. *)
Record datetime := mkdatetime { wall : Z; tzinfo : option Z }.

(** [datetime.timezone.utc] *)
Definition utc : Z := 0.

(** What [component.get('dtstart').dt] can be: a [datetime.date] that is not
    a date-time (its ordinal), or a [datetime.datetime]. *)
Inductive dt :=
| Date (ordinal : Z)
| DateTime (d : datetime).

Module Cal.

(** Calendar arithmetic, as in CPython's [_pydatetime]. *)
Definition is_leap (y : Z) : bool :=
  (y mod 4 =? 0) && (negb (y mod 100 =? 0) || (y mod 400 =? 0)).

Definition days_before_year (y : Z) : Z :=
  let y' := y - 1 in y' * 365 + y' / 4 - y' / 100 + y' / 400.

Definition days_before_month (y m : Z) : Z :=
  nth (Z.to_nat m) [0; 0; 31; 59; 90; 120; 151; 181; 212; 243; 273; 304; 334] 0
  + (if (2 <? m) && is_leap y then 1 else 0).

Definition ymd2ord (y m d : Z) : Z :=
  days_before_year y + days_before_month y m + d.

Definition ord2ymd (ordinal : Z) : Z * Z * Z :=
  let n := ordinal - 1 in
  let n400 := n / 146097 in
  let n := n mod 146097 in
  let year := n400 * 400 + 1 in
  let n100 := n / 36524 in
  let n := n mod 36524 in
  let n4 := n / 1461 in
  let n := n mod 1461 in
  let n1 := n / 365 in
  let n := n mod 365 in
  let year := year + n100 * 100 + n4 * 4 + n1 in
  if (n1 =? 4) || (n100 =? 4) then (year - 1, 12, 31)
  else
    let leapyear := (n1 =? 3) && (negb (n4 =? 24) || (n100 =? 3)) in
    let month := Z.shiftr (n + 50) 5 in
    let preceding :=
      days_before_month 1 month + (if (2 <? month) && leapyear then 1 else 0) in
    if n <? preceding
    then
      let month := month - 1 in
      let preceding :=
        preceding
        - (nth (Z.to_nat month) [0; 31; 28; 31; 30; 31; 30; 31; 31; 30; 31; 30; 31] 0
           + (if (month =? 2) && leapyear then 1 else 0)) in
      (year, month, n - preceding + 1)
    else (year, month, n - preceding + 1).

(** [date.weekday()]: Monday is 0. *)
Definition weekday (ordinal : Z) : Z := (ordinal + 6) mod 7.

Definition day_name (ordinal : Z) : string :=
  nth (Z.to_nat (weekday ordinal))
    ["Monday"; "Tuesday"; "Wednesday"; "Thursday"; "Friday"; "Saturday"; "Sunday"] "".

Definition month_name (m : Z) : string :=
  nth (Z.to_nat m)
    [""; "January"; "February"; "March"; "April"; "May"; "June"; "July";
     "August"; "September"; "October"; "November"; "December"] "".

End Cal.

Definition toordinal (d : datetime) : Z := wall d / US_PER_DAY.
Definition hour (d : datetime) : Z := wall d mod US_PER_DAY / US_PER_HOUR.
Definition minute (d : datetime) : Z := wall d mod US_PER_HOUR / US_PER_MINUTE.
Definition second (d : datetime) : Z := wall d mod US_PER_MINUTE / US_PER_SECOND.

(** [datetime(y, m, d, hh, mm, ss, tzinfo=tz)] *)
Definition datetime_of (y m d hh mm ss : Z) (tz : option Z) : datetime :=
  mkdatetime (Cal.ymd2ord y m d * US_PER_DAY + hh * US_PER_HOUR + mm * US_PER_MINUTE
              + ss * US_PER_SECOND) tz.

(** [d.replace(tzinfo=tz)]: the clock value is kept, only the zone changes. *)
Definition replace_tzinfo (d : datetime) (tz : option Z) : datetime :=
  mkdatetime (wall d) tz.

(** [datetime.combine(date, time.min)] and [datetime.combine(date, time.max)].
    [combine] reads only the calendar date of its first argument, so a
    date-time is accepted there too. *)
Definition date_of (v : dt) : Z :=
  match v with Date o => o | DateTime d => toordinal d end.

Definition combine_min (ordinal : Z) : datetime :=
  mkdatetime (ordinal * US_PER_DAY) None.

Definition combine_max (ordinal : Z) : datetime :=
  mkdatetime (ordinal * US_PER_DAY + (US_PER_DAY - 1)) None.

(** The instant an aware date-time denotes, in microseconds of UTC. *)
Definition instant (w off : Z) : Z := w - off.

Module Fmt.

(** The [strftime] formats the script uses. A [datetime.date] formats its
    clock fields as zero. *)
Definition ymd (ordinal : Z) (sep : string) : string :=
  let '(y, m, d) := Cal.ord2ymd ordinal in
  (Str.zfill 4 y ++ sep ++ Str.zfill 2 m ++ sep ++ Str.zfill 2 d)%string.

Definition clock (v : dt) : Z * Z :=
  match v with
  | Date _ => (0, 0)
  | DateTime d => (hour d, minute d)
  end.

(** ['%Y-%m-%d'] *)
Definition iso_date (v : dt) : string := ymd (date_of v) "-".

(** ['%Y-%m-%d %H:%M'] *)
Definition iso_minute (v : dt) : string :=
  let (h, mi) := clock v in
  (iso_date v ++ " " ++ Str.zfill 2 h ++ ":" ++ Str.zfill 2 mi)%string.

(** ['%B %d'] and ['%B %d, %Y'] *)
Definition month_day (ordinal : Z) : string :=
  let '(_, m, d) := Cal.ord2ymd ordinal in
  (Cal.month_name m ++ " " ++ Str.zfill 2 d)%string.

Definition month_day_year (ordinal : Z) : string :=
  let '(y, _, _) := Cal.ord2ymd ordinal in
  (month_day ordinal ++ ", " ++ Str.zfill 4 y)%string.

(** ['%Y%m%dT%H%M%SZ']: the fields of the wall clock, then the letter Z. *)
Definition basic_z (v : dt) : string :=
  let (h, mi) := clock v in
  let s := match v with Date _ => 0 | DateTime d => second d end in
  (ymd (date_of v) "" ++ "T" ++ Str.zfill 2 h ++ Str.zfill 2 mi ++ Str.zfill 2 s
     ++ "Z")%string.

(** ['%Y-%m-%d at %H:%M'] *)
Definition stamp (d : datetime) : string :=
  (iso_date (DateTime d) ++ " at " ++ Str.zfill 2 (hour d) ++ ":"
     ++ Str.zfill 2 (minute d))%string.

End Fmt.

(* ===================================================================== *)
(** ** Exceptions, results and the monad of the script *)
(* ===================================================================== *)

Inductive exn :=
| AttributeError (msg : string)
| TypeError (msg : string)
| ValueError (msg : string)
| OverflowError (msg : string)
| IndexError (msg : string)
| OSError (msg : string)
| RequestException (msg : string).

(** [str(e)] *)
Definition exn_str (e : exn) : string :=
  match e with
  | AttributeError m | TypeError m | ValueError m | OverflowError m
  | IndexError m | OSError m | RequestException m => m
  end.

(** The value of an expression or of a library call: it is there, or an
    [Exception] was raised. *)
Inductive result (A : Type) :=
| Ok (a : A)
| Raise (e : exn).
Arguments Ok {A} a.
Arguments Raise {A} e.

(** How a piece of the script ends: it returns, an [Exception] leaves it, or
    [sys.exit(code)] was called. [sys.exit] raises [SystemExit], which
    derives from [BaseException] only: [except Exception] lets it through. *)
Inductive outcome (A : Type) :=
| Returned (a : A)
| Raised (e : exn)
| Exited (code : Z).
Arguments Returned {A} a.
Arguments Raised {A} e.
Arguments Exited {A} code.

(** A computation over a mutable state [S]; what it did to the state before
    raising stays done. *)
Definition M (S A : Type) : Type := S -> outcome A * S.

Definition ret {S A} (a : A) : M S A := fun s => (Returned a, s).

Definition bind {S A B} (m : M S A) (k : A -> M S B) : M S B :=
  fun s =>
    match m s with
    | (Returned a, s') => k a s'
    | (Raised e, s') => (Raised e, s')
    | (Exited c, s') => (Exited c, s')
    end.

Definition raise {S A} (e : exn) : M S A := fun s => (Raised e, s).

Definition lift {S A} (r : result A) : M S A :=
  match r with
  | Ok a => ret a
  | Raise e => raise e
  end.

Definition modify {S} (f : S -> S) : M S unit := fun s => (Returned tt, f s).

(** [try: body / except Exception as e: handler(e)] *)
Definition try_except {S} (body : M S unit) (handler : exn -> M S unit) : M S unit :=
  fun s =>
    match body s with
    | (Raised e, s') => handler e s'
    | r => r
    end.

Declare Scope monad_scope.
Delimit Scope monad_scope with monad.
Notation "x <- m ;; k" := (bind m (fun x => k))
  (at level 61, m at next level, right associativity) : monad_scope.
Notation "m ;; k" := (bind m (fun _ => k))
  (at level 61, right associativity) : monad_scope.
Local Open Scope monad_scope.

(** [for x in l: body(x)] *)
Fixpoint for_each {S A} (l : list A) (body : A -> M S unit) : M S unit :=
  match l with
  | [] => ret tt
  | x :: l' => body x ;; for_each l' body
  end.

(** The process as the script sees it: the files, and what was printed on
    the two streams (oldest first). *)
Record World := mkWorld {
  fs : list (string * string);
  stdout : list string;
  stderr : list string
}.

Definition print (line : string) : M World unit :=
  modify (fun w => mkWorld (fs w) (stdout w ++ [line]) (stderr w)).

Definition eprint (line : string) : M World unit :=
  modify (fun w => mkWorld (fs w) (stdout w) (stderr w ++ [line])).

(** [sys.exit(code)] *)
Definition sys_exit {S A} (code : Z) : M S A := fun s => (Exited code, s).

Module Files.

Fixpoint read (path : string) (f : list (string * string)) : option string :=
  match f with
  | [] => None
  | (p, c) :: f' => if String.eqb p path then Some c else read path f'
  end.

(** [os.path.exists(path)] *)
Definition exists_ (path : string) (f : list (string * string)) : bool :=
  match read path f with Some _ => true | None => false end.

Fixpoint remove (path : string) (f : list (string * string)) : list (string * string) :=
  match f with
  | [] => []
  | (p, c) :: f' => if String.eqb p path then remove path f' else (p, c) :: remove path f'
  end.

Definition put (path content : string) (f : list (string * string)) :=
  (path, content) :: remove path f.

End Files.

(* ===================================================================== *)
(** ** The data of the script *)
(* ===================================================================== *)

(** One component of [calendar.walk()], with the properties the script
    reads. [c_rrule] holds the text of [rrule.to_ical()] when the property
    is there; a property that is absent is [None], which is what
    [component.get] answers. *)
Record Component := mkComponent {
  c_name : string;
  c_summary : option string;
  c_description : option string;
  c_location : option string;
  c_organizer : option string;
  c_rrule : option string;
  c_dtstart : option dt;
  c_dtend : option dt
}.

(** The dictionaries appended to [events]. *)
Record Event := mkEvent {
  ev_summary : string;
  ev_description : string;
  ev_location : string;
  ev_organizer : string;
  ev_start : datetime;
  ev_end : option dt;
  ev_all_day : bool
}.

(** The dictionaries [format_events] builds. *)
Record Formatted := mkFormatted {
  Summary : string;
  Start : string;
  End_ : string;
  Location : string;
  Organizer : string;
  Description : string
}.

(** What the script calls and does not define: [requests], [icalendar],
    [dateutil.rrule], [datetime.strptime], the clock and [open]. *)
Class Env := {
  (** [requests.get(url, ...)] followed by [raise_for_status()] and [.text] *)
  requests_get : string -> result string;
  (** [Calendar.from_ical(data).walk()] *)
  from_ical : string -> result (list Component);
  (** [rrulestr(text, forceset=True)] and [rule.between(after, before, inc=True)] *)
  ruleset : Type;
  rrulestr : string -> result ruleset;
  between : ruleset -> datetime -> datetime -> result (list datetime);
  (** [datetime.strptime(s, '%Y-%m-%d').date()], as an ordinal *)
  strptime_date : string -> result Z;
  (** [datetime.datetime.now()] *)
  now : datetime;
  (** whether [open(path, 'w')] succeeds *)
  can_open : string -> bool
}.

(* ===================================================================== *)
(** ** Operations on date-times that can raise *)
(* ===================================================================== *)

(** [a <= b] on two date-times: the instants are compared when both are
    aware, the clocks when both are naive, and a naive value can not be
    ordered against an aware one. *)
Definition datetime_le (a b : datetime) : result bool :=
  match tzinfo a, tzinfo b with
  | None, None => Ok (wall a <=? wall b)
  | Some oa, Some ob => Ok (instant (wall a) oa <=? instant (wall b) ob)
  | _, _ => Raise (TypeError "can't compare offset-naive and offset-aware datetimes")
  end.

(** [a <= b] on the values a property can hold: a bare date can not be
    ordered against a date-time. *)
Definition le (a b : dt) : result bool :=
  match a, b with
  | DateTime x, DateTime y => datetime_le x y
  | Date x, Date y => Ok (x <=? y)
  | _, _ => Raise (TypeError "can't compare datetime.datetime to datetime.date")
  end.

(** [lo <= x <= hi], evaluated left to right, the second test only when the
    first holds. *)
Definition chained_le (lo : datetime) (x : dt) (hi : datetime) : result bool :=
  match le (DateTime lo) x with
  | Ok true => le x (DateTime hi)
  | Ok false => Ok false
  | Raise e => Raise e
  end.

(** [a - b] on two date-times. *)
Definition datetime_sub (a b : datetime) : result timedelta :=
  match tzinfo a, tzinfo b with
  | None, None => Ok (wall a - wall b)
  | Some oa, Some ob => Ok (instant (wall a) oa - instant (wall b) ob)
  | _, _ => Raise (TypeError "can't subtract offset-naive and offset-aware datetimes")
  end.

(** [d + delta]: the clock moves, the zone stays; the result has to be a
    date between 0001-01-01 and 9999-12-31. *)
Definition datetime_add (d : datetime) (delta : timedelta) : result datetime :=
  let w := wall d + delta in
  if (MINORDINAL * US_PER_DAY <=? w) && (w <? (MAXORDINAL + 1) * US_PER_DAY)
  then Ok (mkdatetime w (tzinfo d))
  else Raise (OverflowError "date value out of range").

(** [p.dt] for the answer [p] of [component.get]. *)
Definition dt_of (p : option dt) : result dt :=
  match p with
  | Some v => Ok v
  | None => Raise (AttributeError "'NoneType' object has no attribute 'dt'")
  end.

(** [if d.tzinfo is None: d = d.replace(tzinfo=datetime.timezone.utc)] *)
Definition attach_utc (d : datetime) : datetime :=
  match tzinfo d with
  | None => replace_tzinfo d (Some utc)
  | Some _ => d
  end.

(** The same, guarded by [isinstance(v, datetime.datetime)]. *)
Definition attach_utc_dt (v : dt) : dt :=
  match v with
  | DateTime d => DateTime (attach_utc d)
  | Date _ => v
  end.

Definition nl : string := String (ascii_of_nat 10) EmptyString.

(* ===================================================================== *)
(** ** The script *)
(* ===================================================================== *)

(** The locals of [parse_ical_data] that are mutated, next to the process. *)
Record Frame := mkFrame { events : list Event; world : World }.

Definition append (e : Event) : M Frame unit :=
  modify (fun f => mkFrame (events f ++ [e]) (world f)).

Definition in_world {A} (m : M World A) : M Frame A :=
  fun f => let (r, w) := m (world f) in (r, mkFrame (events f) w).

Definition str_or (default : string) (p : option string) : string :=
  match p with Some s => s | None => default end.

(** [status] of the process for the way [main] ended. *)
Definition exit_status {A} (r : outcome A) : Z :=
  match r with
  | Returned _ => 0
  | Raised _ => 1
  | Exited c => c
  end.

Section Script.

Context {E : Env}.

Definition get_current_week_range : datetime * datetime :=
  let today := toordinal now in
  let start_of_week := today - Cal.weekday today in
  let end_of_week := start_of_week + 6 in
  let start_datetime := combine_min start_of_week in
  let end_datetime := combine_max end_of_week in
  (replace_tzinfo start_datetime (Some utc), replace_tzinfo end_datetime (Some utc)).

Definition fetch_calendar (url : string) : M World string :=
  match requests_get url with
  | Ok text => ret text
  | Raise (RequestException m) =>
      eprint ("Error fetching calendar: " ++ m) ;; sys_exit 1
  | Raise e => raise e
  end.

(** *** parse_ical_data: the recurring branch *)

(** The text given to [rrulestr]. *)
Definition rrule_string (dtstart : dt) (rrule_str : string) : string :=
  ("DTSTART:" ++ Fmt.basic_z dtstart ++ nl ++ rrule_str)%string.

(** [start_date_aware] and [end_date_aware]. *)
Definition date_aware (dtstart : dt) (bound : datetime) : datetime :=
  match dtstart with
  | DateTime d =>
      match tzinfo d with
      | Some _ => attach_utc bound
      | None => bound
      end
  | Date _ => bound
  end.

(** [duration], computed for each instance from the definition as the
    feed gave it. *)
Definition original_duration (c : Component) : result (option timedelta) :=
  match c_dtend c with
  | None => Ok None
  | Some original_end =>
      match dt_of (c_dtstart c) with
      | Raise e => Raise e
      | Ok (DateTime original_start) =>
          match original_end with
          | DateTime original_end =>
              let '(original_start, original_end) :=
                match tzinfo original_start, tzinfo original_end with
                | None, Some _ =>
                    (replace_tzinfo original_start (tzinfo original_end), original_end)
                | Some _, None =>
                    (original_start, replace_tzinfo original_end (tzinfo original_start))
                | _, _ => (original_start, original_end)
                end in
              match datetime_sub original_end original_start with
              | Ok d => Ok (Some d)
              | Raise e => Raise e
              end
          | Date _ => Ok None
          end
      | Ok (Date _) => Ok None
      end
  end.

(** [event_end]: [if duration:] holds for a duration that is there and is
    not the zero [timedelta]. *)
Definition instance_end (instance : datetime) (duration : option timedelta)
  : result (option dt) :=
  match duration with
  | None => Ok None
  | Some d =>
      if d =? 0 then Ok None
      else match datetime_add instance d with
           | Ok e => Ok (Some (DateTime e))
           | Raise e => Raise e
           end
  end.

(** The body of [for instance in instances]. *)
Definition expand_instance (c : Component) (summary description location organizer : string)
    (instance : datetime) : M Frame unit :=
  let event_start := instance in
  duration <- lift (original_duration c) ;;
  event_end <- lift (instance_end event_start duration) ;;
  append (mkEvent summary description location organizer event_start event_end false).

Definition recurring_event (c : Component) (rrule_str : string)
    (start_date end_date : datetime)
    (summary description location organizer : string) : M Frame unit :=
  dtstart <- lift (dt_of (c_dtstart c)) ;;
  let dtstart := attach_utc_dt dtstart in
  let rrule_string := rrule_string dtstart rrule_str in
  let start_date_aware := date_aware dtstart start_date in
  let end_date_aware := date_aware dtstart end_date in
  try_except
    (rule <- lift (rrulestr rrule_string) ;;
     instances <- lift (between rule start_date_aware end_date_aware) ;;
     for_each instances (expand_instance c summary description location organizer))
    (fun e => in_world (eprint ("Error processing recurring event: " ++ exn_str e))).

(** *** parse_ical_data: the regular branch *)

Definition regular_event (c : Component) (start_date end_date : datetime)
    (summary description location organizer : string) : M Frame unit :=
  event_start <- lift (dt_of (c_dtstart c)) ;;
  let event_end := c_dtend c in
  (* all-day events *)
  let '(all_day, event_start, event_end) :=
    match event_start with
    | Date o =>
        (true, combine_min o,
         option_map (fun e => DateTime (combine_min (date_of e))) event_end)
    | DateTime d => (false, d, event_end)
    end in
  (* timezone awareness *)
  let event_start := attach_utc event_start in
  let event_end := option_map attach_utc_dt event_end in
  let event_start_compare := attach_utc event_start in
  let event_end_compare := option_map attach_utc_dt event_end in
  (* is the event in the current week *)
  starts_in <- lift (chained_le start_date (DateTime event_start_compare) end_date) ;;
  in_week <- (if starts_in : bool then ret true
              else match event_end_compare with
                   | None => ret false
                   | Some e => lift (chained_le start_date e end_date)
                   end) ;;
  if in_week : bool
  then append (mkEvent summary description location organizer event_start event_end all_day)
  else ret tt.

(** The body of [for component in calendar.walk()]. *)
Definition process_component (start_date end_date : datetime) (c : Component)
  : M Frame unit :=
  if String.eqb (c_name c) "VEVENT" then
    let summary := str_or "No Title" (c_summary c) in
    let description := str_or "" (c_description c) in
    let location := str_or "" (c_location c) in
    let organizer := str_or "" (c_organizer c) in
    match c_rrule c with
    | Some rrule_str =>
        recurring_event c rrule_str start_date end_date
          summary description location organizer
    | None =>
        regular_event c start_date end_date summary description location organizer
    end
  else ret tt.

Definition parse_body (ical_data : string) (start_date end_date : datetime) : M Frame unit :=
  try_except
    (calendar <- lift (from_ical ical_data) ;;
     for_each calendar (process_component start_date end_date))
    (fun e => in_world (eprint ("Error parsing calendar: " ++ exn_str e)) ;; sys_exit 1).

Definition parse_ical_data (ical_data : string) (start_date end_date : datetime)
  : M World (list Event) :=
  fun w =>
    match parse_body ical_data start_date end_date (mkFrame [] w) with
    | (Returned tt, f) => (Returned (events f), world f)
    | (Raised e, f) => (Raised e, world f)
    | (Exited c, f) => (Exited c, world f)
    end.

End Script.

(* ===================================================================== *)
(** ** format_events *)
(* ===================================================================== *)

(** The organizer as shown: lines 196 to 199. Where ['MAILTO:'] occurs the
    list of [split] has a second element, see [split_second]. *)
Definition format_organizer (organizer : string) : string :=
  if Str.contains "MAILTO:" organizer
  then Str.strip (nth 1 (Str.split "MAILTO:" organizer) "")
  else organizer.

Definition format_event (event : Event) : Formatted :=
  let start_str := Fmt.iso_minute (DateTime (ev_start event)) in
  let end_str :=
    match ev_end event with
    | Some e => Fmt.iso_minute e
    | None => "N/A"
    end in
  let '(start_str, end_str) :=
    if ev_all_day event
    then ((Fmt.iso_date (DateTime (ev_start event)) ++ " (All day)")%string,
          match ev_end event with
          | Some e => (Fmt.iso_date e ++ " (All day)")%string
          | None => "N/A"
          end)
    else (start_str, end_str) in
  mkFormatted (ev_summary event) start_str end_str (ev_location event)
    (format_organizer (ev_organizer event)) (ev_description event).

Definition format_events (events : list Event) : list Formatted :=
  map format_event events.

(* ===================================================================== *)
(** ** save_to_markdown *)
(* ===================================================================== *)

Definition TEAMS : string := "Join Microsoft Teams Meeting".
Definition ZOOM : string := "Join Zoom Meeting".
Definition ZOOM_DE : string := "Sie wurden zu einem Zoom-Meeting eingeladen".

(** The description after lines 281 to 286. *)
Definition cut_description (description : string) : string :=
  if Str.contains TEAMS description then hd "" (Str.split TEAMS description)
  else if Str.contains ZOOM description then hd "" (Str.split ZOOM description)
  else if Str.contains ZOOM_DE description then hd "" (Str.split ZOOM_DE description)
  else description.

(** [indented_description] *)
Definition indent (description : string) : string :=
  Str.join nl (map (fun line => ("    " ++ line)%string) (Str.split nl description)).

(** What is written for the description of one event, nothing when it is
    empty. *)
Definition details_block (description : string) : list string :=
  if String.eqb description "" then []
  else ["**Details:**" ++ nl ++ nl;
        indent (cut_description description) ++ nl ++ nl]%string.

(** [l[i]] on the list of a [split]. *)
Definition index (l : list string) (i : nat) : result string :=
  match nth_error l i with
  | Some s => Ok s
  | None => Raise (IndexError "list index out of range")
  end.

(** The key under which an event goes into [events_by_day]. *)
Definition date_str (event : Formatted) : string :=
  if Str.contains " (All day)" (Start event)
  then hd "" (Str.split " (All day)" (Start event))
  else hd "" (Str.split " " (Start event)).

(** [events_by_day], a dictionary: its keys in order of first insertion. *)
Fixpoint add_event (day : string) (event : Formatted) (by_day : list (string * list Formatted))
  : list (string * list Formatted) :=
  match by_day with
  | [] => [(day, [event])]
  | (d, l) :: rest =>
      if String.eqb d day then (d, (l ++ [event])%list) :: rest
      else (d, l) :: add_event day event rest
  end.

Definition group_by_day (events : list Formatted) : list (string * list Formatted) :=
  fold_left (fun by_day event => add_event (date_str event) event by_day) events [].

Fixpoint events_of (day : string) (by_day : list (string * list Formatted)) : list Formatted :=
  match by_day with
  | [] => []
  | (d, l) :: rest => if String.eqb d day then l else events_of day rest
  end.

(** [sorted(keys)] *)
Fixpoint insert_sorted (k : string) (l : list string) : list string :=
  match l with
  | [] => [k]
  | x :: l' => if String.leb k x then k :: l else x :: insert_sorted k l'
  end.

Definition sorted (l : list string) : list string :=
  fold_right insert_sorted [] l.

(** [time_str] *)
Definition time_str (event : Formatted) : result string :=
  if Str.contains " (All day)" (Start event) then Ok "All day"
  else
    match index (Str.split " " (Start event)) 1 with
    | Raise e => Raise e
    | Ok start_time =>
        if String.eqb (End_ event) "N/A" then Ok (start_time ++ " - N/A")%string
        else match index (Str.split " " (End_ event)) 1 with
             | Raise e => Raise e
             | Ok end_time => Ok (start_time ++ " - " ++ end_time)%string
             end
    end.

Section Output.

Context {E : Env}.

(** [open(path, 'w')]: the file is there and empty from then on. *)
Definition open_w (path : string) : M World unit :=
  if can_open path
  then modify (fun w => mkWorld (Files.put path "" (fs w)) (stdout w) (stderr w))
  else raise (OSError "cannot open the output file").

(** [md_file.write(text)] *)
Definition write (path text : string) : M World unit :=
  modify (fun w =>
    let old := match Files.read path (fs w) with Some c => c | None => "" end in
    mkWorld (Files.put path (old ++ text) (fs w)) (stdout w) (stderr w)).

Definition write_when (cond : bool) (path text : string) : M World unit :=
  if cond then write path text else ret tt.

(** The body of [for event in events_by_day[day]]. *)
Definition write_event (output_file : string) (event : Formatted) : M World unit :=
  time_str <- lift (time_str event) ;;
  write output_file ("### " ++ Summary event ++ nl ++ nl) ;;
  write output_file ("**Time:** " ++ time_str ++ nl ++ nl) ;;
  write_when (negb (String.eqb (Location event) "")) output_file
    ("**Location:** " ++ Location event ++ nl ++ nl) ;;
  write_when (negb (String.eqb (Organizer event) "")) output_file
    ("**Organizer:** " ++ Organizer event ++ nl ++ nl) ;;
  for_each (details_block (Description event)) (write output_file) ;;
  write output_file ("---" ++ nl ++ nl).

(** The body of [for day in sorted_days]. *)
Definition write_day (output_file : string) (by_day : list (string * list Formatted))
    (day : string) : M World unit :=
  day_dt <- lift (strptime_date day) ;;
  write output_file
    ("## " ++ Cal.day_name day_dt ++ ", " ++ Fmt.month_day day_dt ++ nl ++ nl) ;;
  for_each (events_of day by_day) (write_event output_file).

Definition save_to_markdown (events : list Formatted) (output_file : string)
  : M World unit :=
  match events with
  | [] => print "No events found for the current week."
  | _ :: _ =>
      try_except
        (let today := toordinal now in
         let start_of_week := today - Cal.weekday today in
         let end_of_week := start_of_week + 6 in
         let week_range :=
           (Fmt.month_day start_of_week ++ " - " ++ Fmt.month_day_year end_of_week)%string in
         open_w output_file ;;
         write output_file ("# Calendar Events: " ++ week_range ++ nl ++ nl) ;;
         let events_by_day := group_by_day events in
         let sorted_days := sorted (map fst events_by_day) in
         for_each sorted_days (write_day output_file events_by_day) ;;
         write output_file
           (nl ++ nl ++ "_Generated on " ++ Fmt.stamp now ++ " · "
              ++ Str.decimal (Z.of_nat (List.length events)) ++ " events_") ;;
         print ("Events saved to " ++ output_file))
        (fun e => eprint ("Error saving to Markdown: " ++ exn_str e) ;; sys_exit 1)
  end.

Definition get_world : M World World := fun w => (Returned w, w).

(** [main], after [argparse] has read [--url], [--output] and [--stdout].
    The last [print] is given [sys.stderr] as a second value to print, not
    as its [file]: the line goes to the standard output, followed by the
    text of that object. *)
Definition main (url output : string) (to_stdout : bool) : M World unit :=
  eprint "Fetching calendar data..." ;;
  calendar_data <- fetch_calendar url ;;
  eprint "Determining current week..." ;;
  let (start_date, end_date) := get_current_week_range in
  eprint ("Current week: " ++ Fmt.iso_date (DateTime start_date) ++ " to "
            ++ Fmt.iso_date (DateTime end_date)) ;;
  print "Extracting events..." ;;
  events <- parse_ical_data calendar_data start_date end_date ;;
  eprint ("Found " ++ Str.decimal (Z.of_nat (List.length events))
            ++ " events for the current week.") ;;
  let formatted_events := format_events events in
  save_to_markdown formatted_events output ;;
  w <- get_world ;;
  if negb (Files.exists_ output (fs w))
  then eprint ("Output file " ++ output ++ " does not exist.") ;; sys_exit 1
  else if to_stdout
       then print (match Files.read output (fs w) with Some c => c | None => "" end)
       else print "No output to stdout selected <stderr>".

End Output.

(* ===================================================================== *)
(** ** A small rule engine and environment for the examples *)
(* ===================================================================== *)

Module Demo.

(** A rule that repeats for ever, every [step] microseconds from [first]
    (an instant of UTC). *)
Record rule := mkRule { first : Z; step : Z }.

Fixpoint number (s : string) (acc : Z) : option Z :=
  match s with
  | EmptyString => Some acc
  | String c s' =>
      let n := nat_of_ascii c in
      if ((48 <=? n) && (n <=? 57))%nat
      then number s' (acc * 10 + Z.of_nat (n - 48))
      else None
  end.

Definition field (s : string) (pos len : nat) : option Z :=
  number (substring pos len s) 0.

(** [YYYYMMDDTHHMMSSZ], read as a date-time of UTC. *)
Definition parse_basic_z (s : string) : option Z :=
  match field s 0 4, field s 4 2, field s 6 2, field s 9 2, field s 11 2, field s 13 2 with
  | Some y, Some m, Some d, Some hh, Some mm, Some ss =>
      if String.eqb (substring 8 1 s) "T" && String.eqb (substring 15 1 s) "Z"
         && (String.length s =? 16)%nat
      then Some (wall (datetime_of y m d hh mm ss None))
      else None
  | _, _, _, _, _, _ => None
  end.

Definition frequency (r : string) : option Z :=
  if String.eqb r "FREQ=DAILY" then Some US_PER_DAY
  else if String.eqb r "FREQ=WEEKLY" then Some (7 * US_PER_DAY)
  else None.

Definition parse_rule (text : string) : result rule :=
  match Str.split nl text with
  | [head; r] =>
      if Str.startswith "DTSTART:" head then
        match parse_basic_z (substring 8 16 head), frequency r with
        | Some w, Some st => Ok (mkRule w st)
        | None, _ => Raise (ValueError "unknown string format")
        | _, None => Raise (ValueError "unknown parameter")
        end
      else Raise (ValueError "unsupported property")
  | _ => Raise (ValueError "unsupported property")
  end.

(** The instants [first + k * step], [k >= 0], from [after] to [before]
    inclusive. The instances are aware, so naive bounds can not be
    compared with them. *)
Definition instances (r : rule) (after before : datetime) : result (list datetime) :=
  match tzinfo after, tzinfo before with
  | Some oa, Some ob =>
      let a := instant (wall after) oa in
      let b := instant (wall before) ob in
      let k0 := Z.max 0 ((a - first r + step r - 1) / step r) in
      let k1 := (b - first r) / step r in
      Ok (map (fun k => mkdatetime (first r + (k0 + Z.of_nat k) * step r) (Some utc))
            (seq 0 (Z.to_nat (k1 - k0 + 1))))
  | _, _ => Raise (TypeError "can't compare offset-naive and offset-aware datetimes")
  end.

(** ['%Y-%m-%d'] read back, for keys written by [strftime]. *)
Definition read_date (s : string) : result Z :=
  match field s 0 4, field s 5 2, field s 8 2 with
  | Some y, Some m, Some d =>
      if (String.length s =? 10)%nat then Ok (Cal.ymd2ord y m d)
      else Raise (ValueError "unconverted data remains")
  | _, _, _ => Raise (ValueError "time data does not match format '%Y-%m-%d'")
  end.

(** The environment of a run on Tuesday 2026-11-03 at 08:30 whose feed
    decodes to [feed]. *)
Definition env (feed : result (list Component)) : Env := {|
  requests_get := fun _ => Ok "BEGIN:VCALENDAR";
  from_ical := fun _ => feed;
  ruleset := rule;
  rrulestr := parse_rule;
  between := instances;
  strptime_date := read_date;
  now := datetime_of 2026 11 3 8 30 0 None;
  can_open := fun _ => true
|}.

Definition vevent (summary : string) (organizer description : option string)
    (r : option string) (s e : option dt) : Component :=
  mkComponent "VEVENT" (Some summary) description None organizer r s e.

(** The window of that week: Monday 2026-11-02 00:00:00 to Sunday
    2026-11-08 23:59:59.999999, UTC. *)
Definition monday : datetime := datetime_of 2026 11 2 0 0 0 (Some utc).
Definition sunday_end : datetime :=
  mkdatetime (wall (datetime_of 2026 11 8 23 59 59 None) + 999999) (Some utc).

Definition cet : Z := US_PER_HOUR.

Definition empty_world : World := mkWorld [] [] [].

(** A weekly meeting, Mondays 10:00 to 10:30 in Berlin (09:00 to 09:30 UTC),
    first held on 2026-10-05. *)
Definition berlin_start : datetime := datetime_of 2026 10 5 10 0 0 (Some cet).
Definition weekly_berlin : Component :=
  vevent "Standup" None None (Some "FREQ=WEEKLY")
    (Some (DateTime berlin_start))
    (Some (DateTime (datetime_of 2026 10 5 10 30 0 (Some cet)))).

(** A weekly reminder whose end is its start, and the same as a one-off
    entry on the Monday of the week. *)
Definition reminder_at : dt := DateTime (datetime_of 2026 11 2 10 0 0 (Some utc)).
Definition weekly_reminder : Component :=
  vevent "Reminder" None None (Some "FREQ=WEEKLY") (Some reminder_at) (Some reminder_at).
Definition single_reminder : Component :=
  vevent "Reminder" None None None (Some reminder_at) (Some reminder_at).

(** A weekly all-day entry, given by bare dates, and the same as a one-off
    entry. *)
Definition weekly_all_day : Component :=
  vevent "Review day" None None (Some "FREQ=WEEKLY")
    (Some (Date (Cal.ymd2ord 2026 11 4))) (Some (Date (Cal.ymd2ord 2026 11 5))).
Definition single_all_day : Component :=
  vevent "Review day" None None None
    (Some (Date (Cal.ymd2ord 2026 11 4))) (Some (Date (Cal.ymd2ord 2026 11 5))).


(** A daily entry from the Monday of the week that is open to 9999-12-28:
    the end of its fifth instance would lie after 9999-12-31. *)
Definition open_ended_daily : Component :=
  vevent "On call" None None (Some "FREQ=DAILY")
    (Some (DateTime (datetime_of 2026 11 2 0 0 0 (Some utc))))
    (Some (DateTime (datetime_of 9999 12 28 0 0 0 (Some utc)))).

(** A one-off entry without a start, and one that starts at a date-time
    before the week and ends at a bare date. *)
Definition no_start : Component := vevent "Draft" None None None None None.
Definition mixed_ends : Component :=
  vevent "Move" None None None
    (Some (DateTime (datetime_of 2026 10 30 9 0 0 (Some utc))))
    (Some (Date (Cal.ymd2ord 2026 11 3))).

(** A one-off call given without a zone, Wednesday 14:00 to 15:00. *)
Definition naive_call : Component :=
  vevent "Call" None None None
    (Some (DateTime (datetime_of 2026 11 4 14 0 0 None)))
    (Some (DateTime (datetime_of 2026 11 4 15 0 0 None))).


(** The address of the feed, the default output path, and a process that
    still has the document of an earlier week. *)
Definition feed_url : string := "https://outlook.example/owa/calendar/feed.ics".
Definition default_output : string := "weekly_calendar.md".
Definition stale_world : World :=
  mkWorld [(default_output, "# Calendar Events: October 26 - November 01, 2026")] [] [].

(** A one-off meeting that starts at the last instant of the week. *)
Definition at_week_end : Component :=
  vevent "Week closing" None None None (Some (DateTime sunday_end)) None.


(** A one-off stay from the Friday before the week to the Tuesday after
    it: it covers the whole week and neither end lies in it. *)
Definition across_week : Component :=
  vevent "Sabbatical" None None None
    (Some (DateTime (datetime_of 2026 10 30 9 0 0 (Some utc))))
    (Some (DateTime (datetime_of 2026 11 10 17 0 0 (Some utc)))).

End Demo.

(* ===================================================================== *)
(** ** Vocabulary of the specification *)
(* ===================================================================== *)

(** [pre] is what precedes the first (leftmost) occurrence of [m] in [s]. *)
Definition first_at (m pre s : string) : Prop :=
  (exists post, s = (pre ++ m ++ post)%string) /\
  forall pre' post', s = (pre' ++ m ++ post')%string ->
    (String.length pre <= String.length pre')%nat.

(** The marker at which a description is cut: the first of the three, in
    the order Teams, Zoom, German Zoom, that the description contains. *)
Definition marker_in_force (description : string) : option string :=
  if Str.contains TEAMS description then Some TEAMS
  else if Str.contains ZOOM description then Some ZOOM
  else if Str.contains ZOOM_DE description then Some ZOOM_DE
  else None.

(** The instant of a date-time, a naive one being read in UTC. *)
Definition instant_of (d : datetime) : Z :=
  match tzinfo d with
  | Some off => instant (wall d) off
  | None => wall d
  end.



(** [lo <= i <= hi] *)
Definition within (lo hi i : Z) : bool := (lo <=? i) && (i <=? hi).

(** [isinstance(v, datetime.date) and not isinstance(v, datetime.datetime)] *)
Definition is_date (v : dt) : bool :=
  match v with Date _ => true | DateTime _ => false end.

(** The occurrence a regular definition is listed as. *)
Definition regular_occurrence (c : Component) (s : dt) : Event :=
  mkEvent (str_or "No Title" (c_summary c)) (str_or "" (c_description c))
    (str_or "" (c_location c)) (str_or "" (c_organizer c))
    (attach_utc match s with Date o => combine_min o | DateTime d => d end)
    (option_map
       (fun e => attach_utc_dt
                   match s with
                   | Date _ => DateTime (combine_min (date_of e))
                   | DateTime _ => e
                   end)
       (c_dtend c))
    (is_date s).

(** The occurrence of the recurring branch for an instance and its end. *)
Definition recurring_occurrence (summary description location organizer : string)
    (p : datetime * option dt) : Event :=
  mkEvent summary description location organizer (fst p) (snd p) false.

(** The text fields of an occurrence are those of its definition, with the
    defaults of [component.get]. *)
Definition copied_from (c : Component) (ev : Event) : Prop :=
  ev_summary ev = str_or "No Title" (c_summary c) /\
  ev_description ev = str_or "" (c_description c) /\
  ev_location ev = str_or "" (c_location c) /\
  ev_organizer ev = str_or "" (c_organizer c).

(** The frame [f] after [new] was appended to [events] and [log] printed on
    the error stream. *)
Definition extend (f : Frame) (new : list Event) (log : list string) : Frame :=
  mkFrame (events f ++ new)
    (mkWorld (fs (world f)) (stdout (world f)) (stderr (world f) ++ log)).

(** [m] only appends to [events] and prints on the error stream, the same
    events and lines and with the same end on every frame; it does not call
    [sys.exit], and the events it appends satisfy [P]. *)
Definition appends {A} (P : Event -> Prop) (m : M Frame A) : Prop :=
  exists r new log,
    (forall code, r <> Exited code) /\ Forall P new /\
    forall f, m f = (r, extend f new log).

(* ===================================================================== *)
(** ** Further vocabulary and examples *)
(* ===================================================================== *)

(** [component.name == "VEVENT"] *)
Definition is_vevent (c : Component) : bool := String.eqb (c_name c) "VEVENT".

Module Sample.

(** The environment of [Demo.env] with the answers of [requests] and of the
    decoder given for each address and each text. *)
Definition env (get : string -> result string)
    (decode : string -> result (list Component)) (writable : string -> bool) : Env := {|
  requests_get := get;
  from_ical := decode;
  ruleset := Demo.rule;
  rrulestr := Demo.parse_rule;
  between := Demo.instances;
  strptime_date := Demo.read_date;
  now := datetime_of 2026 11 3 8 30 0 None;
  can_open := writable
|}.

(** The server does not answer. *)
Definition offline : Env :=
  env (fun _ => Raise (RequestException "503 Server Error: Service Unavailable"))
    (fun _ => Ok []) (fun _ => true).

(** The server answers with a page that is no calendar. *)
Definition garbled : Env :=
  env (fun _ => Ok "<html>")
    (fun _ => Raise (ValueError "Content line could not be parsed into parts"))
    (fun _ => true).

(** A time zone definition, as [walk] yields it among the events. *)
Definition vtimezone : Component :=
  mkComponent "VTIMEZONE" None None None None None None None.

(** Three feeds: the call of Wednesday, the weekly meeting with the time zone
    definition, and the three together. *)
Definition feeds (text : string) : result (list Component) :=
  if String.eqb text "call" then Ok [Demo.naive_call]
  else if String.eqb text "meeting" then Ok [vtimezone; Demo.weekly_berlin]
  else if String.eqb text "meeting only" then Ok [Demo.weekly_berlin]
  else if String.eqb text "both" then Ok [Demo.naive_call; vtimezone; Demo.weekly_berlin]
  else Raise (ValueError "Content line could not be parsed into parts").

Definition library : Env := env (fun url => Ok url) feeds (fun _ => true).

(** A weekly entry without a start. *)
Definition series_without_start : Component :=
  Demo.vevent "Untimed" None None (Some "FREQ=WEEKLY") None None.

End Sample.

(** Every character of [s] satisfies [P]. *)
Fixpoint every (P : ascii -> bool) (s : string) : bool :=
  match s with
  | EmptyString => true
  | String c s' => P c && every P s'
  end.

Definition is_digit (c : ascii) : bool :=
  let n := nat_of_ascii c in ((48 <=? n) && (n <=? 57))%nat.

(** The characters of ['%Y-%m-%d']: digits and the hyphen. *)
Definition date_char (c : ascii) : bool := is_digit c || Ascii.eqb c "-".

(** The characters of ['%H:%M']: digits and the colon. *)
Definition time_char (c : ascii) : bool := is_digit c || Ascii.eqb c ":".

(** The characters of ['%Y-%m-%d %H:%M']. *)
Definition stamp_char (c : ascii) : bool :=
  date_char c || time_char c || Ascii.eqb c " ".

(** ['%H:%M'] *)
Definition clock_text (v : dt) : string :=
  (Str.zfill 2 (fst (Fmt.clock v)) ++ ":" ++ Str.zfill 2 (snd (Fmt.clock v)))%string.

(** The time line of an occurrence in the document. *)
Definition time_line (ev : Event) : string :=
  if ev_all_day ev then "All day"
  else (clock_text (DateTime (ev_start ev)) ++ " - "
          ++ match ev_end ev with
             | Some e => clock_text e
             | None => "N/A"
             end)%string.

(** The first and the last thing [save_to_markdown] writes. *)
Definition document_title {E : Env} : string :=
  let today := toordinal now in
  let start_of_week := today - Cal.weekday today in
  let end_of_week := start_of_week + 6 in
  ("# Calendar Events: "
     ++ (Fmt.month_day start_of_week ++ " - " ++ Fmt.month_day_year end_of_week)
     ++ nl ++ nl)%string.

Definition document_footer {E : Env} (count : nat) : string :=
  (nl ++ nl ++ "_Generated on " ++ Fmt.stamp now ++ " · "
     ++ Str.decimal (Z.of_nat count) ++ " events_")%string.

(** [m], run while the file [output] is open with the other files being
    [rest], only adds text at the end of that file: it changes no other
    file, prints nothing on the error stream and does not call [sys.exit]. *)
Definition writes_to {A} (output : string) (rest : list (string * string))
    (m : M World A) : Prop :=
  forall w c, fs w = (output, c) :: rest ->
    exists c',
      fs (snd (m w)) = (output, (c ++ c')%string) :: rest /\
      stderr (snd (m w)) = stderr w /\
      forall code, fst (m w) <> Exited code.

(** [m] does that and returns, having printed nothing. *)
Definition renders (output : string) (rest : list (string * string))
    (m : M World unit) : Prop :=
  forall w c, fs w = (output, c) :: rest ->
    exists c',
      m w = (Returned tt, mkWorld ((output, (c ++ c')%string) :: rest) (stdout w) (stderr w)).

(* ===================================================================== *)
(** ** Strings: [in], [split] *)
(* ===================================================================== *)

Local Open Scope list_scope.

Lemma append_assoc (a b c : string) : ((a ++ b) ++ c = a ++ (b ++ c))%string.
Proof. induction a as [|x a IH]; simpl; [reflexivity | now rewrite IH]. Qed.

Lemma append_nil_r (a : string) : (a ++ "")%string = a.
Proof. induction a as [|x a IH]; simpl; [reflexivity | now rewrite IH]. Qed.

Lemma length_append (a b : string) :
  String.length (a ++ b) = (String.length a + String.length b)%nat.
Proof. induction a as [|x a IH]; simpl; [reflexivity | now rewrite IH]. Qed.

Lemma startswith_iff (p s : string) :
  Str.startswith p s = true <-> exists r, s = (p ++ r)%string.
Proof.
  revert s; induction p as [|a p IH]; intros s; simpl.
  - split; [intros _; now exists s | reflexivity].
  - destruct s as [|b s].
    + split; [discriminate | intros [r H]; discriminate].
    + rewrite andb_true_iff, Ascii.eqb_eq, IH. split.
      * intros [-> [r ->]]. now exists r.
      * intros [r H]. injection H as -> ->. split; [reflexivity | now exists r].
Qed.

Lemma contains_iff (p s : string) :
  Str.contains p s = true <-> exists a b, s = (a ++ p ++ b)%string.
Proof.
  induction s as [|c s IH].
  - simpl. rewrite orb_false_r, startswith_iff. split.
    + intros [r H]. now exists ""%string, r.
    + intros [a [b H]]. destruct a; [now exists b | discriminate].
  - cbn [Str.contains]. rewrite orb_true_iff, startswith_iff, IH. split.
    + intros [[r H] | [a [b H]]].
      * now exists ""%string, r.
      * exists (String c a), b. simpl. now rewrite H.
    + intros [a [b H]]. destruct a as [|x a].
      * left. now exists b.
      * right. simpl in H. injection H as -> ->. now exists a, b.
Qed.

(** Once a separator is matched, its remaining characters are dropped. *)
Lemma split_go_skip (m x r : string) :
  Str.split_go m (x ++ r) (String.length x) = Str.split_go m r O.
Proof. induction x as [|c x IH]; simpl; [reflexivity | exact IH]. Qed.

(** [split] at the leftmost occurrence: the first element is what precedes
    it and the others are the [split] of what follows it. *)
Lemma split_first (m s : string) :
  m <> ""%string -> Str.contains m s = true ->
  exists pre post,
    s = (pre ++ m ++ post)%string /\ first_at m pre s /\
    Str.split m s = pre :: Str.split m post.
Proof.
  intros Hm. induction s as [|c s IH]; intros Hc.
  - simpl in Hc. rewrite orb_false_r in Hc. destruct m; [congruence | discriminate].
  - destruct (Str.startswith m (String c s)) eqn:Hs.
    + apply startswith_iff in Hs as Hr. destruct Hr as [post Hr].
      exists ""%string, post. split; [exact Hr |]. split.
      * split; [now exists post | intros; simpl; lia].
      * unfold Str.split. cbn [Str.split_go]. rewrite Hs.
        destruct m as [|a m']; [congruence |].
        simpl in Hr. injection Hr as -> ->. simpl String.length. simpl Nat.pred.
        rewrite split_go_skip. reflexivity.
    + cbn [Str.contains] in Hc. rewrite Hs in Hc. simpl in Hc.
      destruct (IH Hc) as [pre [post [E [[_ Hmin] Hsp]]]].
      exists (String c pre), post. split; [simpl; now rewrite <- E |]. split.
      * split; [exists post; simpl; now rewrite <- E |].
        intros pre' post' H. destruct pre' as [|x pre'].
        -- simpl in H. assert (Str.startswith m (String c s) = true)
             by (apply startswith_iff; now exists post').
           congruence.
        -- simpl in H. injection H as _ H. apply Hmin in H. simpl. lia.
      * unfold Str.split in *. cbn [Str.split_go]. rewrite Hs.
        destruct (Str.split_go m s O) as [h t]. injection Hsp as -> ->.
        destruct (Str.split_go m post O); reflexivity.
Qed.

Lemma split_none (m s : string) :
  Str.contains m s = false -> Str.split m s = [s].
Proof.
  induction s as [|c s IH]; intros H.
  - reflexivity.
  - cbn [Str.contains] in H. apply orb_false_iff in H as [Hs Hc].
    unfold Str.split in *. cbn [Str.split_go]. rewrite Hs.
    specialize (IH Hc). destruct (Str.split_go m s O) as [h t].
    injection IH as -> ->. reflexivity.
Qed.

(** Where [m] occurs, [split] has a second element: [split(m)[1]] is there. *)
Lemma split_second (m s : string) :
  m <> ""%string -> Str.contains m s = true ->
  exists x, nth_error (Str.split m s) 1 = Some x /\ nth 1 (Str.split m s) ""%string = x.
Proof.
  intros Hm Hc. destruct (split_first m s Hm Hc) as [pre [post [_ [_ ->]]]].
  simpl. unfold Str.split. destruct (Str.split_go m post O) as [h t].
  exists h. split; reflexivity.
Qed.

(* ===================================================================== *)
(** ** What a piece of [parse_ical_data] does to its frame *)
(* ===================================================================== *)


Lemma extend_nil (f : Frame) : extend f [] [] = f.
Proof.
  destruct f as [ev [f o e]]. unfold extend. simpl. now rewrite !app_nil_r.
Qed.

Lemma extend_extend (f : Frame) n1 l1 n2 l2 :
  extend (extend f n1 l1) n2 l2 = extend f (n1 ++ n2) (l1 ++ l2).
Proof. unfold extend. simpl. now rewrite !app_assoc. Qed.

Section Appends.

Variable P : Event -> Prop.

Lemma appends_ret {A} (a : A) : appends P (ret a).
Proof.
  exists (Returned a), [], []. repeat split; [discriminate | constructor |].
  intros f. unfold ret. now rewrite extend_nil.
Qed.

Lemma appends_raise {A} (e : exn) : appends P (@raise Frame A e).
Proof.
  exists (Raised e), [], []. repeat split; [discriminate | constructor |].
  intros f. unfold raise. now rewrite extend_nil.
Qed.

Lemma appends_lift {A} (r : result A) : appends P (lift r).
Proof. destruct r; [apply appends_ret | apply appends_raise]. Qed.

Lemma appends_append (e : Event) : P e -> appends P (append e).
Proof.
  intros H. exists (Returned tt), [e], [].
  repeat split; [discriminate | now constructor |].
  intros [ev [f o er]]. unfold append, modify, extend. simpl. now rewrite app_nil_r.
Qed.

Lemma appends_eprint (line : string) : appends P (in_world (eprint line)).
Proof.
  exists (Returned tt), [], [line]. repeat split; [discriminate | constructor |].
  intros [ev [f o er]]. unfold in_world, eprint, modify, extend. simpl.
  now rewrite app_nil_r.
Qed.

Lemma appends_bind {A B} (m : M Frame A) (k : A -> M Frame B) :
  appends P m -> (forall a, appends P (k a)) -> appends P (bind m k).
Proof.
  intros [r [n1 [l1 [Hx [H1 Hm]]]]] Hk. destruct r as [a | e | c].
  - destruct (Hk a) as [r2 [n2 [l2 [Hx2 [H2 Hka]]]]].
    exists r2, (n1 ++ n2)%list, (l1 ++ l2)%list.
    repeat split; [assumption | now apply Forall_app |].
    intros f. unfold bind. rewrite Hm, Hka. now rewrite extend_extend.
  - exists (Raised e), n1, l1. repeat split; [discriminate | assumption |].
    intros f. unfold bind. now rewrite Hm.
  - now destruct (Hx c).
Qed.

Lemma appends_try (body : M Frame unit) (handler : exn -> M Frame unit) :
  appends P body -> (forall e, appends P (handler e)) -> appends P (try_except body handler).
Proof.
  intros [r [n1 [l1 [Hx [H1 Hm]]]]] Hh. destruct r as [[] | e | c].
  - exists (Returned tt), n1, l1. repeat split; [discriminate | assumption |].
    intros f. unfold try_except. now rewrite Hm.
  - destruct (Hh e) as [r2 [n2 [l2 [Hx2 [H2 Hhe]]]]].
    exists r2, (n1 ++ n2)%list, (l1 ++ l2)%list.
    repeat split; [assumption | now apply Forall_app |].
    intros f. unfold try_except. rewrite Hm, Hhe. now rewrite extend_extend.
  - now destruct (Hx c).
Qed.

Lemma appends_for {A} (l : list A) (body : A -> M Frame unit) :
  (forall x, appends P (body x)) -> appends P (for_each l body).
Proof.
  intros Hb. induction l as [|x l IH]; simpl.
  - apply appends_ret.
  - apply appends_bind; [apply Hb | intros _; exact IH].
Qed.

End Appends.

Lemma appends_weaken {A} (P Q : Event -> Prop) (m : M Frame A) :
  (forall e, P e -> Q e) -> appends P m -> appends Q m.
Proof.
  intros H [r [new [log [Hx [HP Hm]]]]]. exists r, new, log.
  repeat split; [exact Hx | | exact Hm].
  eapply Forall_impl; eauto.
Qed.


Lemma bind_ret {S A B} (a : A) (k : A -> M S B) : bind (ret a) k = k a.
Proof. reflexivity. Qed.

Lemma bind_raise {S A B} (e : exn) (k : A -> M S B) : bind (raise e) k = raise e.
Proof. reflexivity. Qed.

Section ParseFacts.

Context {E : Env}.

(** An occurrence of the recurring branch: not all-day, and its end is what
    [instance_end] makes of its start and of the duration of [c]. *)
Lemma expand_instance_appends c su de lo og i :
  appends (fun ev =>
             ev_all_day ev = false /\ ev_start ev = i /\
             (ev_summary ev = su /\ ev_description ev = de /\
              ev_location ev = lo /\ ev_organizer ev = og) /\
             exists duration,
               original_duration c = Ok duration /\
               instance_end i duration = Ok (ev_end ev))
    (expand_instance c su de lo og i).
Proof.
  unfold expand_instance.
  destruct (original_duration c) as [d | e] eqn:Hd; cbn [lift].
  2: { rewrite bind_raise. apply appends_raise. }
  rewrite bind_ret.
  destruct (instance_end i d) as [en | e] eqn:He; cbn [lift].
  2: { rewrite bind_raise. apply appends_raise. }
  rewrite bind_ret. apply appends_append. simpl.
  repeat split. exists d. split; [reflexivity | exact He].
Qed.

Lemma recurring_event_appends c r lo hi su de loc og :
  appends (fun ev =>
             ev_all_day ev = false /\
             (ev_summary ev = su /\ ev_description ev = de /\
              ev_location ev = loc /\ ev_organizer ev = og) /\
             exists duration,
               original_duration c = Ok duration /\
               instance_end (ev_start ev) duration = Ok (ev_end ev))
    (recurring_event c r lo hi su de loc og).
Proof.
  unfold recurring_event.
  apply appends_bind; [apply appends_lift | intros s].
  apply appends_try.
  - apply appends_bind; [apply appends_lift | intros rule].
    apply appends_bind; [apply appends_lift | intros l].
    apply appends_for. intros i.
    eapply appends_weaken; [| apply expand_instance_appends].
    intros ev [Ha [Hi [Ht Hd]]]. subst i. auto.
  - intros e. apply appends_eprint.
Qed.

Lemma regular_event_appends c lo hi :
  appends (fun ev => copied_from c ev /\
                     forall s, c_dtstart c = Some s -> ev = regular_occurrence c s)
    (regular_event c lo hi (str_or "No Title" (c_summary c)) (str_or "" (c_description c))
       (str_or "" (c_location c)) (str_or "" (c_organizer c))).
Proof.
  unfold regular_event. destruct (c_dtstart c) as [s|]; cbn [dt_of lift].
  2: { rewrite bind_raise. apply appends_raise. }
  rewrite bind_ret.
  destruct s as [o | d];
    (apply appends_bind; [apply appends_lift | intros b1];
     apply appends_bind;
     [ destruct b1; [apply appends_ret |];
       match goal with
       | |- appends _ (match ?x with _ => _ end) =>
           destruct x; [apply appends_lift | apply appends_ret]
       end
     | intros b2; destruct b2; [| apply appends_ret] ]).
  all: apply appends_append; split; [unfold copied_from; simpl; auto |].
  all: intros s H; injection H as <-.
  all: unfold regular_occurrence; destruct (c_dtend c); reflexivity.
Qed.

(** Every event a component adds carries the text fields of that component.
    One added on the recurring branch is not all-day and has the end
    [instance_end] computes; one added on the regular branch is the
    [regular_occurrence] of the component. *)
Lemma process_component_appends lo hi c :
  appends (fun ev =>
             copied_from c ev /\
             match c_rrule c with
             | Some _ =>
                 ev_all_day ev = false /\
                 exists duration,
                   original_duration c = Ok duration /\
                   instance_end (ev_start ev) duration = Ok (ev_end ev)
             | None => forall s, c_dtstart c = Some s -> ev = regular_occurrence c s
             end)
    (process_component lo hi c).
Proof.
  unfold process_component. destruct (String.eqb (c_name c) "VEVENT").
  2: apply appends_ret.
  destruct (c_rrule c) as [r|] eqn:Hr.
  - eapply appends_weaken; [| apply recurring_event_appends].
    unfold copied_from. simpl. intuition.
  - apply regular_event_appends.
Qed.

End ParseFacts.

(* ===================================================================== *)
(** ** The regular branch: which definitions are listed *)
(* ===================================================================== *)

Section Regular.

Context {E : Env}.


End Regular.


(** The meeting at the last instant of the week is listed. *)
Example week_end_meeting_listed :
  @process_component (Demo.env (Ok [])) Demo.monday Demo.sunday_end Demo.at_week_end
    (mkFrame [] Demo.empty_world)
  = (Returned tt,
     mkFrame [regular_occurrence Demo.at_week_end (DateTime Demo.sunday_end)]
       Demo.empty_world).
Proof. vm_compute. reflexivity. Qed.

(** The stay that covers the whole week is not listed. *)
Example across_week_not_listed :
  @process_component (Demo.env (Ok [])) Demo.monday Demo.sunday_end Demo.across_week
    (mkFrame [] Demo.empty_world)
  = (Returned tt, mkFrame [] Demo.empty_world).
Proof. vm_compute. reflexivity. Qed.

(* ===================================================================== *)
(** ** The recurring branch: expansion *)
(* ===================================================================== *)

Lemma appends_run {A} (P : Event -> Prop) (m : M Frame A) (f : Frame) :
  appends P m ->
  exists new,
    events (snd (m f)) = events f ++ new /\ Forall P new /\
    fs (world (snd (m f))) = fs (world f) /\
    stdout (world (snd (m f))) = stdout (world f) /\
    forall code, fst (m f) <> Exited code.
Proof.
  intros [r [new [log [Hx [HP Hm]]]]]. exists new. rewrite Hm. simpl. auto.
Qed.

Lemma for_each_app {S A} (l1 l2 : list A) (body : A -> M S unit) (s : S) :
  for_each (l1 ++ l2) body s = bind (for_each l1 body) (fun _ => for_each l2 body) s.
Proof.
  revert s. induction l1 as [|x l1 IH]; intros s; simpl.
  - reflexivity.
  - unfold bind. destruct (body x s) as [[[] | e | c] s']; [| reflexivity ..].
    rewrite IH. reflexivity.
Qed.

Section Recurring.

Context {E : Env}.

Variables (c : Component) (su de lo og : string).

Lemma expand_all duration instances ends :
  original_duration c = Ok duration ->
  Forall2 (fun i en => instance_end i duration = Ok en) instances ends ->
  forall f,
    for_each instances (expand_instance c su de lo og) f =
    (Returned tt, mkFrame (events f ++ map (recurring_occurrence su de lo og) (combine instances ends)) (world f)).
Proof.
  intros Hd H. induction H as [|i en l ens Hi _ IH]; intros f; simpl.
  - rewrite app_nil_r. destruct f; reflexivity.
  - unfold bind at 1. unfold expand_instance at 1. rewrite Hd. cbn [lift].
    rewrite bind_ret, Hi. cbn [lift]. rewrite bind_ret.
    unfold append, modify. rewrite IH. simpl. rewrite <- app_assoc. reflexivity.
Qed.

(** When the end of an instance can not be computed the loop stops there:
    the occurrences of the instances before it are already in [events]. *)
Lemma expand_until_failure duration before ends i e after :
  original_duration c = Ok duration ->
  Forall2 (fun i en => instance_end i duration = Ok en) before ends ->
  instance_end i duration = Raise e ->
  forall f,
    for_each (before ++ i :: after) (expand_instance c su de lo og) f =
    (Raised e, mkFrame (events f ++ map (recurring_occurrence su de lo og) (combine before ends)) (world f)).
Proof.
  intros Hd H Hi f. rewrite for_each_app. unfold bind.
  rewrite (expand_all _ _ _ Hd H). simpl. unfold bind, expand_instance.
  rewrite Hd. cbn [lift]. rewrite bind_ret, Hi. reflexivity.
Qed.

End Recurring.

Section RecurringBranch.

Context {E : Env}.

(** X8. When the rule is read, the instances are enumerated and the end of
    each can be computed, one occurrence is listed for each instance that
    [between] returned, in that order, starting at that instance, and
    nothing is printed. *)
Lemma recurring_lists_every_instance c lo hi r s rule instances duration ends f :
  c_name c = "VEVENT"%string -> c_rrule c = Some r -> c_dtstart c = Some s ->
  rrulestr (rrule_string (attach_utc_dt s) r) = Ok rule ->
  between rule (date_aware (attach_utc_dt s) lo) (date_aware (attach_utc_dt s) hi)
    = Ok instances ->
  original_duration c = Ok duration ->
  Forall2 (fun i en => instance_end i duration = Ok en) instances ends ->
  process_component lo hi c f =
    (Returned tt,
     mkFrame
       (events f ++
        map (recurring_occurrence (str_or "No Title" (c_summary c))
               (str_or "" (c_description c)) (str_or "" (c_location c))
               (str_or "" (c_organizer c)))
          (combine instances ends))
       (world f)).
Proof.
  intros Hn Hr Hs Hrule Hbet Hd Hends.
  unfold process_component. rewrite Hn, Hr. cbn [String.eqb Ascii.eqb Bool.eqb].
  unfold recurring_event. rewrite Hs. cbn [dt_of lift]. rewrite bind_ret.
  unfold try_except. rewrite Hrule. cbn [lift]. rewrite bind_ret.
  rewrite Hbet. cbn [lift]. rewrite bind_ret.
  rewrite (expand_all _ _ _ _ _ _ _ _ Hd Hends). reflexivity.
Qed.

(** X9. When the end of one instance can not be computed, the error is
    printed and the definition is left, with the occurrences of the instances
    before that one already listed and none for that one and the later ones. *)
Lemma end_failure_keeps_earlier_instances
    c lo hi r s rule before i after duration ends e f :
  c_name c = "VEVENT"%string -> c_rrule c = Some r -> c_dtstart c = Some s ->
  rrulestr (rrule_string (attach_utc_dt s) r) = Ok rule ->
  between rule (date_aware (attach_utc_dt s) lo) (date_aware (attach_utc_dt s) hi)
    = Ok (before ++ i :: after) ->
  original_duration c = Ok duration ->
  Forall2 (fun i en => instance_end i duration = Ok en) before ends ->
  instance_end i duration = Raise e ->
  process_component lo hi c f =
    (Returned tt,
     extend f
       (map (recurring_occurrence (str_or "No Title" (c_summary c))
               (str_or "" (c_description c)) (str_or "" (c_location c))
               (str_or "" (c_organizer c)))
          (combine before ends))
       [("Error processing recurring event: " ++ exn_str e)%string]).
Proof.
  intros Hn Hr Hs Hrule Hbet Hd Hends Hi.
  unfold process_component. rewrite Hn, Hr. cbn [String.eqb Ascii.eqb Bool.eqb].
  unfold recurring_event. rewrite Hs. cbn [dt_of lift]. rewrite bind_ret.
  unfold try_except. rewrite Hrule. cbn [lift]. rewrite bind_ret.
  rewrite Hbet. cbn [lift]. rewrite bind_ret.
  rewrite (expand_until_failure _ _ _ _ _ _ _ _ _ _ _ Hd Hends Hi). reflexivity.
Qed.


(** C7. Every occurrence the recurring branch lists has [all_day] false,
    whether the definition starts at a bare date or at a date-time; an
    occurrence the regular branch lists has [all_day] true exactly when the
    start of the definition is a bare date. *)
Theorem all_day_only_on_regular_branch c lo hi f :
  exists new,
    events (snd (process_component lo hi c f)) = events f ++ new /\
    Forall (fun ev =>
              match c_rrule c, c_dtstart c with
              | Some _, _ => ev_all_day ev = false
              | None, Some s => ev_all_day ev = is_date s
              | None, None => True
              end) new.
Proof.
  destruct (appends_run _ _ f (process_component_appends lo hi c))
    as [new [Hev [HP _]]].
  exists new. split; [exact Hev |].
  eapply Forall_impl; [| exact HP]. intros ev [_ H].
  destruct (c_rrule c).
  - apply H.
  - destruct (c_dtstart c) as [s|]; [| exact I]. rewrite (H s eq_refl). reflexivity.
Qed.

End RecurringBranch.


(** The same recurring and one-off all-day entries: only the one-off one is
    listed as all-day. *)
Example all_day_flag_of_the_two_branches :
  map ev_all_day
    (events (snd (@process_component (Demo.env (Ok [])) Demo.monday Demo.sunday_end
                    Demo.weekly_all_day (mkFrame [] Demo.empty_world)))) = [false] /\
  map ev_all_day
    (events (snd (@process_component (Demo.env (Ok [])) Demo.monday Demo.sunday_end
                    Demo.single_all_day (mkFrame [] Demo.empty_world)))) = [true].
Proof. split; vm_compute; reflexivity. Qed.

(** An end that leaves the calendar at the fifth instance: four occurrences
    stay listed and the error is reported. *)
Example open_ended_daily_lists_four :
  let f := snd (@process_component (Demo.env (Ok [])) Demo.monday Demo.sunday_end
                  Demo.open_ended_daily (mkFrame [] Demo.empty_world)) in
  map ev_start (events f)
    = [datetime_of 2026 11 2 0 0 0 (Some utc); datetime_of 2026 11 3 0 0 0 (Some utc);
       datetime_of 2026 11 4 0 0 0 (Some utc); datetime_of 2026 11 5 0 0 0 (Some utc)] /\
  stderr (world f) = ["Error processing recurring event: date value out of range"%string].
Proof. split; vm_compute; reflexivity. Qed.

(** C2, at a start with a zone other than UTC. The weekly meeting first held
    on 2026-10-05 at 10:00 in Berlin starts at 09:00 UTC. The text given to
    the rule engine carries the fields of the wall clock followed by Z, the
    same text as for a start at 10:00 UTC, and the occurrence listed for the
    week of 2026-11-02 starts at 10:00 UTC, one hour after the instance of
    the series. *)
Theorem berlin_series_anchored_at_wall_clock :
  instant_of Demo.berlin_start = instant_of (datetime_of 2026 10 5 9 0 0 (Some utc)) /\
  rrule_string (attach_utc_dt (DateTime Demo.berlin_start)) "FREQ=WEEKLY"
    = ("DTSTART:20261005T100000Z" ++ nl ++ "FREQ=WEEKLY")%string /\
  (forall w off r,
     rrule_string (attach_utc_dt (DateTime (mkdatetime w (Some off)))) r
     = rrule_string (DateTime (mkdatetime w (Some utc))) r) /\
  @process_component (Demo.env (Ok [])) Demo.monday Demo.sunday_end Demo.weekly_berlin
    (mkFrame [] Demo.empty_world)
  = (Returned tt,
     mkFrame
       [mkEvent "Standup" "" "" "" (datetime_of 2026 11 2 10 0 0 (Some utc))
          (Some (DateTime (datetime_of 2026 11 2 10 30 0 (Some utc)))) false]
       Demo.empty_world) /\
  instant_of Demo.berlin_start + 4 * (7 * US_PER_DAY)
    = instant_of (datetime_of 2026 11 2 9 0 0 (Some utc)).
Proof.
  split; [reflexivity |]. split; [reflexivity |]. split; [reflexivity |].
  split; vm_compute; reflexivity.
Qed.

Section ZeroLength.

Context {E : Env}.

(** A recurring definition whose end is its start: the duration is the zero
    [timedelta], which [if duration:] takes for an absent one, so that no
    occurrence of it has an end. *)
Lemma zero_length_series_has_no_end name su de loc og r d lo hi f :
  let c := mkComponent name su de loc og (Some r) (Some (DateTime d)) (Some (DateTime d)) in
  original_duration c = Ok (Some 0) /\
  exists new,
    events (snd (process_component lo hi c f)) = events f ++ new /\
    Forall (fun ev => ev_end ev = None) new.
Proof.
  intros c.
  assert (Hd : original_duration c = Ok (Some 0)).
  { unfold original_duration, c. simpl. destruct d as [w [off|]]; simpl.
    - unfold datetime_sub. simpl. now rewrite Z.sub_diag.
    - unfold datetime_sub. simpl. now rewrite Z.sub_diag. }
  split; [exact Hd |].
  destruct (appends_run _ _ f (process_component_appends lo hi c))
    as [new [Hev [HP _]]].
  exists new. split; [exact Hev |].
  eapply Forall_impl; [| exact HP]. intros ev [_ H]. simpl in H.
  destruct H as [_ [duration [H1 H2]]]. rewrite Hd in H1. injection H1 as <-.
  simpl in H2. congruence.
Qed.

End ZeroLength.

(** C3, at a definition whose end is its start. The weekly reminder at
    2026-11-02 10:00 UTC has an end and both its start and its end are
    date-times; its occurrence in the week is listed without an end, where
    the claim asks for the start plus the zero duration. The same entry
    without a rule is listed with its end. *)
Theorem weekly_reminder_listed_without_end :
  c_dtend Demo.weekly_reminder = Some Demo.reminder_at /\
  c_dtstart Demo.weekly_reminder = Some Demo.reminder_at /\
  is_date Demo.reminder_at = false /\
  @process_component (Demo.env (Ok [])) Demo.monday Demo.sunday_end Demo.weekly_reminder
    (mkFrame [] Demo.empty_world)
  = (Returned tt,
     mkFrame
       [mkEvent "Reminder" "" "" "" (datetime_of 2026 11 2 10 0 0 (Some utc)) None false]
       Demo.empty_world) /\
  @process_component (Demo.env (Ok [])) Demo.monday Demo.sunday_end Demo.single_reminder
    (mkFrame [] Demo.empty_world)
  = (Returned tt,
     mkFrame
       [mkEvent "Reminder" "" "" "" (datetime_of 2026 11 2 10 0 0 (Some utc))
          (Some Demo.reminder_at) false]
       Demo.empty_world).
Proof. repeat split; vm_compute; reflexivity. Qed.

Lemma instance_end_some_iff i duration en :
  instance_end i duration = Ok (Some en) <->
  exists d e, duration = Some d /\ d <> 0 /\ datetime_add i d = Ok e /\ en = DateTime e.
Proof.
  unfold instance_end. split.
  - destruct duration as [d|]; [| discriminate].
    destruct (Z.eqb_spec d 0) as [-> | Hd]; [discriminate |].
    destruct (datetime_add i d) as [e | x] eqn:He; [| discriminate].
    intros H. injection H as <-. exists d, e. auto.
  - intros [d [e [-> [Hd [He ->]]]]].
    destruct (Z.eqb_spec d 0) as [-> | _]; [congruence |]. now rewrite He.
Qed.

(** The duration is there exactly when the definition has an end and both
    its start and its end are date-times. *)
Lemma original_duration_some_iff c s :
  c_dtstart c = Some s ->
  (exists d, original_duration c = Ok (Some d)) <->
  (exists e, c_dtend c = Some e /\ is_date s = false /\ is_date e = false).
Proof.
  intros Hs. unfold original_duration. rewrite Hs. cbn [dt_of]. split.
  - intros [d H]. destruct (c_dtend c) as [e|]; [| discriminate].
    exists e. destruct s, e; try discriminate. auto.
  - intros [e [-> [H1 H2]]]. destruct s as [|x], e as [|y]; try discriminate.
    destruct x as [wx [ox|]], y as [wy [oy|]]; simpl; eexists; reflexivity.
Qed.

(* ===================================================================== *)
(** ** Naive date-times *)
(* ===================================================================== *)

Section Naive.

Context {E : Env}.


End Naive.

(** The call given without a zone is listed at the same clock, in UTC. *)
Example naive_call_listed_in_utc :
  events (snd (@process_component (Demo.env (Ok [])) Demo.monday Demo.sunday_end
                 Demo.naive_call (mkFrame [] Demo.empty_world)))
  = [mkEvent "Call" "" "" "" (datetime_of 2026 11 4 14 0 0 (Some utc))
       (Some (DateTime (datetime_of 2026 11 4 15 0 0 (Some utc)))) false].
Proof. vm_compute. reflexivity. Qed.

(* ===================================================================== *)
(** ** Failures on the regular branch *)
(* ===================================================================== *)

Section Abort.

Context {E : Env}.

Lemma chained_le_within lo hi ol oh d :
  tzinfo lo = Some ol -> tzinfo hi = Some oh ->
  chained_le lo (DateTime (attach_utc d)) hi
  = Ok (within (instant_of lo) (instant_of hi) (instant_of d)).
Proof.
  intros Hlo Hhi. unfold chained_le, le, datetime_le, within, instant_of.
  rewrite Hlo, Hhi. destruct d as [w [o|]]; simpl.
  - destruct (instant (wall lo) ol <=? instant w o); reflexivity.
  - unfold instant, utc. rewrite Z.sub_0_r.
    destruct (wall lo - ol <=? w); reflexivity.
Qed.

(** A regular definition without a start, or with a date-time start outside
    the window and a bare date for its end, raises out of its branch. *)
Lemma regular_failure_raises c lo hi ol oh :
  c_name c = "VEVENT"%string -> c_rrule c = None ->
  tzinfo lo = Some ol -> tzinfo hi = Some oh ->
  (c_dtstart c = None \/
   exists d x, c_dtstart c = Some (DateTime d) /\ c_dtend c = Some (Date x) /\
               within (instant_of lo) (instant_of hi) (instant_of d) = false) ->
  exists e, forall f, process_component lo hi c f = (Raised e, f).
Proof.
  intros Hn Hr Hlo Hhi [Hs | [d [x [Hs [He Hout]]]]].
  - eexists. intros f. unfold process_component. rewrite Hn, Hr.
    cbn [String.eqb Ascii.eqb Bool.eqb]. unfold regular_event. rewrite Hs. reflexivity.
  - eexists. intros f. unfold process_component. rewrite Hn, Hr.
    cbn [String.eqb Ascii.eqb Bool.eqb]. unfold regular_event. rewrite Hs, He.
    cbn [dt_of lift option_map attach_utc_dt]. rewrite bind_ret.
    assert (Ha : attach_utc (attach_utc d) = attach_utc d)
      by (destruct d as [w [o|]]; reflexivity).
    rewrite Ha, (chained_le_within _ _ _ _ _ Hlo Hhi), Hout.
    unfold chained_le, le. cbn [lift]. rewrite bind_ret. reflexivity.
Qed.

(** C10. A feed with a regular event component that has no start, or whose
    start is a date-time outside the window and whose end is a bare date, is
    not parsed to the end: the diagnostic is the last line printed on the
    error stream, the process exits with status 1 and no occurrence is
    returned, whatever the other components are. *)
Theorem regular_failure_aborts_parse text before c after lo hi ol oh w :
  from_ical text = Ok (before ++ c :: after) ->
  c_name c = "VEVENT"%string -> c_rrule c = None ->
  tzinfo lo = Some ol -> tzinfo hi = Some oh ->
  (c_dtstart c = None \/
   exists d x, c_dtstart c = Some (DateTime d) /\ c_dtend c = Some (Date x) /\
               within (instant_of lo) (instant_of hi) (instant_of d) = false) ->
  exists log msg,
    parse_ical_data text lo hi w =
    (Exited 1,
     mkWorld (fs w) (stdout w)
       (stderr w ++ log ++ [("Error parsing calendar: " ++ msg)%string])).
Proof.
  intros Hfeed Hn Hr Hlo Hhi Hbad.
  destruct (regular_failure_raises c lo hi ol oh Hn Hr Hlo Hhi Hbad) as [e He].
  destruct (appends_for (fun _ => True) before (process_component lo hi)) as
    [r [new [log [Hx [_ Hrun]]]]].
  { intros x. eapply appends_weaken; [| apply process_component_appends]. auto. }
  assert (Hall : exists e', for_each (before ++ c :: after) (process_component lo hi)
                              (mkFrame [] w) = (Raised e', extend (mkFrame [] w) new log)).
  { destruct r as [[] | e' | code].
    - exists e. rewrite for_each_app. unfold bind at 1. rewrite Hrun.
      cbn [for_each]. unfold bind. rewrite He. reflexivity.
    - exists e'. rewrite for_each_app. unfold bind at 1. rewrite Hrun. reflexivity.
    - now destruct (Hx code). }
  destruct Hall as [e' Hall].
  exists log, (exn_str e'). unfold parse_ical_data, parse_body, try_except.
  rewrite Hfeed. cbn [lift]. rewrite bind_ret, Hall.
  unfold bind, in_world, eprint, modify, sys_exit, extend. simpl.
  rewrite <- app_assoc. reflexivity.
Qed.

End Abort.

(** The feed of a one-off call, a draft without a start and a weekly
    meeting is not parsed: the draft ends the run. *)
Lemma draft_without_start_ends_the_run :
  exists log msg,
    @parse_ical_data (Demo.env (Ok [Demo.naive_call; Demo.no_start; Demo.weekly_berlin]))
      "BEGIN:VCALENDAR" Demo.monday Demo.sunday_end Demo.empty_world
    = (Exited 1,
       mkWorld [] [] ([] ++ log ++ [("Error parsing calendar: " ++ msg)%string])).
Proof.
  apply (@regular_failure_aborts_parse
           (Demo.env (Ok [Demo.naive_call; Demo.no_start; Demo.weekly_berlin]))
           "BEGIN:VCALENDAR" [Demo.naive_call] Demo.no_start [Demo.weekly_berlin]
           Demo.monday Demo.sunday_end utc utc Demo.empty_world
           eq_refl eq_refl eq_refl eq_refl eq_refl (or_introl eq_refl)).
Defined.

Example draft_without_start_diagnostic :
  @parse_ical_data (Demo.env (Ok [Demo.naive_call; Demo.no_start; Demo.weekly_berlin]))
    "BEGIN:VCALENDAR" Demo.monday Demo.sunday_end Demo.empty_world
  = (Exited 1,
     mkWorld [] []
       ["Error parsing calendar: 'NoneType' object has no attribute 'dt'"%string]).
Proof. vm_compute. reflexivity. Qed.

(** The entry that mixes a date-time start with a bare date end ends the run
    as well. *)
Example mixed_ends_end_the_run :
  @parse_ical_data (Demo.env (Ok [Demo.mixed_ends; Demo.naive_call]))
    "BEGIN:VCALENDAR" Demo.monday Demo.sunday_end Demo.empty_world
  = (Exited 1,
     mkWorld [] []
       ["Error parsing calendar: can't compare datetime.datetime to datetime.date"%string]).
Proof. vm_compute. reflexivity. Qed.

(* ===================================================================== *)
(** ** Rendering: the description and the organizer *)
(* ===================================================================== *)

Lemma cut_at_first (m d : string) :
  m <> ""%string -> Str.contains m d = true -> first_at m (hd ""%string (Str.split m d)) d.
Proof.
  intros Hm Hc. destruct (split_first m d Hm Hc) as [pre [post [_ [H ->]]]]. exact H.
Qed.



Example zoom_alone_cut :
  details_block "Daily sync. Join Zoom Meeting https://zoom.example/j/1"
  = [("**Details:**" ++ nl ++ nl)%string; ("    Daily sync. " ++ nl ++ nl)%string].
Proof. reflexivity. Qed.

Section Organizer.

Context {E : Env}.


End Organizer.


Example organizer_usual :
  format_organizer "MAILTO:bob@example.com" = "bob@example.com"%string /\
  format_organizer "mailto:bob@example.com" = "mailto:bob@example.com"%string.
Proof. split; reflexivity. Qed.

(* ===================================================================== *)
(** ** The run: no occurrence in the week *)
(* ===================================================================== *)

Section Run.

Context {E : Env}.

(** Parsing touches no file and prints nothing on the standard output. *)
Lemma parse_prints_errors_only text lo hi w :
  exists log,
    snd (parse_ical_data text lo hi w) = mkWorld (fs w) (stdout w) (stderr w ++ log).
Proof.
  unfold parse_ical_data, parse_body, try_except.
  destruct (from_ical text) as [calendar | e]; cbn [lift].
  - rewrite bind_ret.
    destruct (appends_for (fun _ => True) calendar (process_component lo hi)) as
      [r [new [log [Hx [_ Hrun]]]]].
    { intros x. eapply appends_weaken; [| apply process_component_appends]. auto. }
    rewrite Hrun. destruct r as [[] | e | code].
    + exists log. reflexivity.
    + eexists. unfold bind, in_world, eprint, modify, sys_exit, extend. simpl.
      rewrite <- app_assoc. reflexivity.
    + now destruct (Hx code).
  - eexists. rewrite bind_raise. unfold raise, bind, in_world, eprint, modify, sys_exit.
    simpl. reflexivity.
Qed.

(** C5, as the script has it. When the feed is fetched and parsed and no
    occurrence lies in the week, no file is written and the notice is
    printed; the exit status is then zero when a file is already there at
    the output path, and one, after a line on the error stream that the
    output file does not exist, when none is. *)
Theorem no_occurrence_exit_status url output to_stdout text w :
  requests_get url = Ok text ->
  (forall w',
     fst (parse_ical_data text (fst get_current_week_range) (snd get_current_week_range) w')
     = Returned []) ->
  let run := main url output to_stdout w in
  fs (snd run) = fs w /\
  In "No events found for the current week."%string (stdout (snd run)) /\
  exit_status (fst run) = (if Files.exists_ output (fs w) then 0 else 1) /\
  (Files.exists_ output (fs w) = false ->
   In ("Output file " ++ output ++ " does not exist.")%string (stderr (snd run))).
Proof.
  intros Hget Hparse run. subst run. unfold main, fetch_calendar. rewrite Hget.
  destruct get_current_week_range as [lo hi]. cbn [fst snd] in Hparse.
  cbv beta iota zeta delta [bind eprint print modify ret get_world].
  match goal with
  | |- context [parse_ical_data text lo hi ?w1] =>
      destruct (parse_prints_errors_only text lo hi w1) as [log Hw];
      specialize (Hparse w1);
      destruct (parse_ical_data text lo hi w1) as [r w2]
  end.
  cbn [fst snd] in Hparse, Hw. subst r w2.
  cbv beta iota zeta delta [format_events map save_to_markdown bind eprint print modify
                              ret get_world sys_exit].
  cbn [fs stdout stderr].
  destruct (Files.exists_ output (fs w)); cbn [negb].
  - destruct to_stdout; cbn [fst snd fs stdout stderr exit_status].
    + repeat split; [| discriminate]. rewrite !in_app_iff. simpl. tauto.
    + repeat split; [| discriminate]. rewrite !in_app_iff. simpl. tauto.
  - cbn [fst snd fs stdout stderr exit_status].
    repeat split.
    + rewrite !in_app_iff. simpl. tauto.
    + intros _. rewrite !in_app_iff. simpl. tauto.
Qed.

End Run.

(** A week without occurrence, with the document of an earlier week still
    at the output path: nothing is written and the status is zero. *)
Lemma quiet_week_with_stale_document :
  let run := @main (Demo.env (Ok [Demo.across_week])) Demo.feed_url Demo.default_output
               false Demo.stale_world in
  fs (snd run) = fs Demo.stale_world /\
  In "No events found for the current week."%string (stdout (snd run)) /\
  exit_status (fst run) = 0.
Proof.
  pose proof (@no_occurrence_exit_status (Demo.env (Ok [Demo.across_week]))
                Demo.feed_url Demo.default_output false "BEGIN:VCALENDAR"
                Demo.stale_world eq_refl (fun w' => eq_refl)) as H.
  exact (conj (proj1 H) (conj (proj1 (proj2 H)) (proj1 (proj2 (proj2 H))))).
Defined.

(** C5 as stated fails on a first run. The feed is fetched and parsed, no
    occurrence lies in the week, no file is written and the notice is
    printed, and the process exits with status one, not zero. *)
Lemma quiet_week_first_run_exits_with_one :
  let env := Demo.env (Ok [Demo.across_week]) in
  let run := @main env Demo.feed_url Demo.default_output false Demo.empty_world in
  @requests_get env Demo.feed_url = Ok "BEGIN:VCALENDAR"%string /\
  fst (@parse_ical_data env "BEGIN:VCALENDAR" Demo.monday Demo.sunday_end Demo.empty_world)
    = Returned [] /\
  @get_current_week_range env = (Demo.monday, Demo.sunday_end) /\
  fs (snd run) = [] /\
  stdout (snd run) = ["Extracting events..."; "No events found for the current week."]%string /\
  fst run = Exited 1 /\
  exit_status (fst run) <> 0.
Proof.
  repeat split; try (vm_compute; reflexivity). vm_compute. discriminate.
Qed.

(* ===================================================================== *)
(** ** The week *)
(* ===================================================================== *)

Section Week.

Context {E : Env}.

(** X1. The window is the week of today: it opens on a Monday at 00:00:00
    UTC, closes on the Sunday six days later at 23:59:59.999999 UTC, and the
    reading of the clock lies in it. *)
Theorem week_range_monday_to_sunday :
  let lo := fst get_current_week_range in
  let hi := snd get_current_week_range in
  tzinfo lo = Some utc /\ tzinfo hi = Some utc /\
  Cal.weekday (toordinal lo) = 0 /\ wall lo mod US_PER_DAY = 0 /\
  Cal.weekday (toordinal hi) = 6 /\
  wall hi = wall lo + 7 * US_PER_DAY - 1 /\
  wall lo <= wall now <= wall hi.
Proof.
  unfold get_current_week_range, toordinal, combine_min, combine_max, replace_tzinfo,
    Cal.weekday.
  cbn [fst snd wall tzinfo].
  assert (HD : US_PER_DAY = 86400000000) by reflexivity. rewrite HD.
  set (t := wall now / 86400000000).
  assert (Ht : 86400000000 * t <= wall now < 86400000000 * t + 86400000000).
  { unfold t. pose proof (Z.div_mod (wall now) 86400000000 ltac:(lia)).
    pose proof (Z.mod_pos_bound (wall now) 86400000000 ltac:(lia)). lia. }
  assert (Hr : 0 <= (t + 6) mod 7 < 7) by (apply Z.mod_pos_bound; lia).
  set (r := (t + 6) mod 7) in *.
  assert (Hs : (t - r + 6) mod 7 = 0).
  { unfold r. pose proof (Z.div_mod (t + 6) 7 ltac:(lia)).
    replace (t - (t + 6) mod 7 + 6) with (((t + 6) / 7) * 7) by lia.
    apply Z.mod_mul. lia. }
  repeat split.
  - rewrite Z.div_mul by lia. exact Hs.
  - apply Z.mod_mul. lia.
  - replace ((t - r + 6) * 86400000000 + (86400000000 - 1))
      with (86399999999 + (t - r + 6) * 86400000000) by lia.
    rewrite Z.div_add by lia. replace (86399999999 / 86400000000) with 0 by reflexivity.
    replace (0 + (t - r + 6) + 6) with ((t - r + 6) + 1 * 6) by lia.
    rewrite <- Zplus_mod_idemp_l, Hs. reflexivity.
  - lia.
  - lia.
  - lia.
Qed.

End Week.

Example week_of_third_of_november :
  @get_current_week_range (Demo.env (Ok [])) = (Demo.monday, Demo.sunday_end).
Proof. vm_compute. reflexivity. Qed.

(* ===================================================================== *)
(** ** The run: failures before rendering *)
(* ===================================================================== *)

Section RunFailures.

Context {E : Env}.

(** X2. When the request fails, the run ends with status 1 after the line
    "Error fetching calendar: ..." on the error stream: no file is created or
    changed, nothing is printed on the standard output, the feed is not
    parsed. *)
Theorem fetch_failure_ends_run url output to_stdout m w :
  requests_get url = Raise (RequestException m) ->
  main url output to_stdout w =
  (Exited 1,
   mkWorld (fs w) (stdout w)
     (stderr w ++ ["Fetching calendar data..."%string]
               ++ [("Error fetching calendar: " ++ m)%string])).
Proof.
  intros H. unfold main, fetch_calendar. rewrite H.
  cbv beta iota zeta delta [bind eprint print modify ret sys_exit].
  cbn [fs stdout stderr]. rewrite <- app_assoc. reflexivity.
Qed.

(** X3. When the text that was fetched can not be decoded, the run ends with
    status 1 after the line "Error parsing calendar: ..." on the error
    stream, and no file is created or changed. *)
Theorem decode_failure_ends_run url output to_stdout text e w :
  requests_get url = Ok text -> from_ical text = Raise e ->
  let run := main url output to_stdout w in
  fst run = Exited 1 /\
  fs (snd run) = fs w /\
  stdout (snd run) = stdout w ++ ["Extracting events..."%string] /\
  exists log, stderr (snd run)
              = stderr w ++ log ++ [("Error parsing calendar: " ++ exn_str e)%string].
Proof.
  intros Hget Hdec run. subst run. unfold main, fetch_calendar. rewrite Hget.
  destruct get_current_week_range as [lo hi].
  cbv beta iota zeta delta [bind eprint print modify ret sys_exit parse_ical_data
                              parse_body try_except].
  rewrite Hdec.
  cbv beta iota zeta delta [bind eprint print modify ret sys_exit lift raise in_world].
  cbn [fst snd fs stdout stderr events world].
  repeat split.
  exists ["Fetching calendar data..."%string; "Determining current week..."%string;
          ("Current week: " ++ Fmt.iso_date (DateTime lo) ++ " to "
             ++ Fmt.iso_date (DateTime hi))%string].
  rewrite <- !app_assoc. reflexivity.
Qed.

(** X4. No exception leaves [parse_ical_data]: it returns the occurrences,
    or it prints "Error parsing calendar: ..." as its last line and exits
    with status 1. In both cases it touches no file and prints nothing on the
    standard output. *)
Theorem parse_returns_or_exits text lo hi w :
  exists log,
    snd (parse_ical_data text lo hi w) = mkWorld (fs w) (stdout w) (stderr w ++ log) /\
    ((exists occurrences, fst (parse_ical_data text lo hi w) = Returned occurrences) \/
     (fst (parse_ical_data text lo hi w) = Exited 1 /\
      exists before msg, log = before ++ [("Error parsing calendar: " ++ msg)%string])).
Proof.
  unfold parse_ical_data, parse_body, try_except.
  destruct (from_ical text) as [calendar | e]; cbn [lift].
  - rewrite bind_ret.
    destruct (appends_for (fun _ => True) calendar (process_component lo hi)) as
      [r [new [log [Hx [_ Hrun]]]]].
    { intros x. eapply appends_weaken; [| apply process_component_appends]. auto. }
    rewrite Hrun. destruct r as [[] | e | code].
    + exists log. split; [reflexivity |]. left. eexists. reflexivity.
    + exists (log ++ [("Error parsing calendar: " ++ exn_str e)%string]). split.
      * unfold bind, in_world, eprint, modify, sys_exit, extend. simpl.
        rewrite <- app_assoc. reflexivity.
      * right. split; [reflexivity |]. exists log, (exn_str e). reflexivity.
    + now destruct (Hx code).
  - exists [("Error parsing calendar: " ++ exn_str e)%string]. split.
    + rewrite bind_raise. reflexivity.
    + right. split; [rewrite bind_raise; reflexivity |].
      exists [], (exn_str e). reflexivity.
Qed.

End RunFailures.

(** The server does not answer: the run ends at once. *)
Lemma offline_run_ends_at_once :
  @main Sample.offline Demo.feed_url Demo.default_output true Demo.stale_world =
  (Exited 1,
   mkWorld (fs Demo.stale_world) []
     ([] ++ ["Fetching calendar data..."%string]
         ++ ["Error fetching calendar: 503 Server Error: Service Unavailable"%string])).
Proof.
  apply (@fetch_failure_ends_run Sample.offline Demo.feed_url Demo.default_output true
           "503 Server Error: Service Unavailable" Demo.stale_world eq_refl).
Defined.

(** The answer is no calendar: the run ends with status 1 and the document
    of the earlier week is left as it was. *)
Lemma garbled_answer_ends_run :
  let run := @main Sample.garbled Demo.feed_url Demo.default_output true Demo.stale_world in
  fst run = Exited 1 /\
  fs (snd run) = fs Demo.stale_world /\
  stdout (snd run) = [] ++ ["Extracting events..."%string] /\
  exists log, stderr (snd run)
              = [] ++ log
                ++ ["Error parsing calendar: Content line could not be parsed into parts"%string].
Proof.
  apply (@decode_failure_ends_run Sample.garbled Demo.feed_url Demo.default_output true
           "<html>" (ValueError "Content line could not be parsed into parts")
           Demo.stale_world eq_refl eq_refl).
Defined.

(* ===================================================================== *)
(** ** The walk over the components *)
(* ===================================================================== *)

Section Walk.

Context {E : Env}.

Lemma not_vevent_skipped lo hi c f :
  is_vevent c = false -> process_component lo hi c f = (Returned tt, f).
Proof. unfold is_vevent, process_component. intros ->. reflexivity. Qed.

Lemma for_each_vevents lo hi calendar f :
  for_each calendar (process_component lo hi) f
  = for_each (filter is_vevent calendar) (process_component lo hi) f.
Proof.
  revert f. induction calendar as [|c l IH]; intros f; [reflexivity |].
  cbn [filter]. destruct (is_vevent c) eqn:Hc.
  - cbn [for_each]. unfold bind.
    destruct (process_component lo hi c f) as [[[] | e | code] f']; [| reflexivity ..].
    apply IH.
  - cbn [for_each]. unfold bind. rewrite (not_vevent_skipped _ _ _ _ Hc). apply IH.
Qed.

(** X5. Components other than events (time zones, alarms, to-dos, the
    calendar itself) do not count: a feed gives the occurrences, the lines
    and the end of the feed that has its event components only. *)
Theorem other_components_ignored text text' calendar lo hi w :
  from_ical text = Ok calendar ->
  from_ical text' = Ok (filter is_vevent calendar) ->
  parse_ical_data text lo hi w = parse_ical_data text' lo hi w.
Proof.
  intros H H'. unfold parse_ical_data, parse_body, try_except.
  rewrite H, H'. cbn [lift]. rewrite !bind_ret, for_each_vevents. reflexivity.
Qed.

(** X6. The occurrences come in the order of the definitions: when two feeds
    are parsed to the end, the feed made of the components of the first
    followed by those of the second gives the occurrences of the first
    followed by those of the second. *)
Theorem occurrences_in_definition_order text1 text2 text l1 l2 lo hi w o1 o2 :
  from_ical text1 = Ok l1 -> from_ical text2 = Ok l2 ->
  from_ical text = Ok (l1 ++ l2) ->
  fst (parse_ical_data text1 lo hi w) = Returned o1 ->
  fst (parse_ical_data text2 lo hi w) = Returned o2 ->
  fst (parse_ical_data text lo hi w) = Returned (o1 ++ o2).
Proof.
  intros H1 H2 H. unfold parse_ical_data, parse_body, try_except.
  rewrite H1, H2, H. cbn [lift]. rewrite !bind_ret, for_each_app. unfold bind at 3.
  destruct (appends_for (fun _ => True) l1 (process_component lo hi)) as
    [r1 [n1 [g1 [_ [_ R1]]]]].
  { intros x. eapply appends_weaken; [| apply process_component_appends]. auto. }
  destruct (appends_for (fun _ => True) l2 (process_component lo hi)) as
    [r2 [n2 [g2 [_ [_ R2]]]]].
  { intros x. eapply appends_weaken; [| apply process_component_appends]. auto. }
  rewrite !R1, !R2.
  destruct r1 as [[] | e1 | c1]; cbn [fst];
    try (unfold bind, in_world, eprint, modify, sys_exit; cbn [fst]; discriminate).
  intros E1. injection E1 as <-.
  destruct r2 as [[] | e2 | c2]; cbn [fst];
    try (unfold bind, in_world, eprint, modify, sys_exit; cbn [fst]; discriminate).
  intros E2. injection E2 as <-.
  unfold extend. cbn [events]. reflexivity.
Qed.

(** A component that raises out of its branch ends the parse, whatever the
    components around it are. *)
Lemma component_failure_aborts_parse text before c after lo hi e w :
  from_ical text = Ok (before ++ c :: after) ->
  (forall f, process_component lo hi c f = (Raised e, f)) ->
  exists log msg,
    parse_ical_data text lo hi w =
    (Exited 1,
     mkWorld (fs w) (stdout w)
       (stderr w ++ log ++ [("Error parsing calendar: " ++ msg)%string])).
Proof.
  intros Hfeed He.
  destruct (appends_for (fun _ => True) before (process_component lo hi)) as
    [r [new [log [Hx [_ Hrun]]]]].
  { intros x. eapply appends_weaken; [| apply process_component_appends]. auto. }
  assert (Hall : exists e', for_each (before ++ c :: after) (process_component lo hi)
                              (mkFrame [] w) = (Raised e', extend (mkFrame [] w) new log)).
  { destruct r as [[] | e' | code].
    - exists e. rewrite for_each_app. unfold bind at 1. rewrite Hrun.
      cbn [for_each]. unfold bind. rewrite He. reflexivity.
    - exists e'. rewrite for_each_app. unfold bind at 1. rewrite Hrun. reflexivity.
    - now destruct (Hx code). }
  destruct Hall as [e' Hall].
  exists log, (exn_str e'). unfold parse_ical_data, parse_body, try_except.
  rewrite Hfeed. cbn [lift]. rewrite bind_ret, Hall.
  unfold bind, in_world, eprint, modify, sys_exit, extend. simpl.
  rewrite <- app_assoc. reflexivity.
Qed.

(** X7. The start of a recurring definition is read before the [try] of its
    branch: a feed with a recurring event component without a start is not
    parsed to the end, it ends the run with the diagnostic and status 1,
    whatever the other components are. *)
Theorem recurring_without_start_aborts_parse text before c after r lo hi w :
  from_ical text = Ok (before ++ c :: after) ->
  c_name c = "VEVENT"%string -> c_rrule c = Some r -> c_dtstart c = None ->
  exists log msg,
    parse_ical_data text lo hi w =
    (Exited 1,
     mkWorld (fs w) (stdout w)
       (stderr w ++ log ++ [("Error parsing calendar: " ++ msg)%string])).
Proof.
  intros Hfeed Hn Hr Hs.
  apply (component_failure_aborts_parse text before c after lo hi
           (AttributeError "'NoneType' object has no attribute 'dt'") w Hfeed).
  intros f. unfold process_component. rewrite Hn, Hr.
  cbn [String.eqb Ascii.eqb Bool.eqb]. unfold recurring_event. rewrite Hs. reflexivity.
Qed.

End Walk.

(** The time zone definition of the feed changes nothing. *)
Lemma time_zone_definition_ignored :
  @parse_ical_data Sample.library "meeting" Demo.monday Demo.sunday_end Demo.empty_world
  = @parse_ical_data Sample.library "meeting only" Demo.monday Demo.sunday_end
      Demo.empty_world.
Proof.
  apply (@other_components_ignored Sample.library "meeting" "meeting only"
           [Sample.vtimezone; Demo.weekly_berlin] Demo.monday Demo.sunday_end
           Demo.empty_world eq_refl eq_refl).
Defined.

(** The call and the meeting, in the order of the feed. *)
Lemma call_then_meeting :
  fst (@parse_ical_data Sample.library "both" Demo.monday Demo.sunday_end Demo.empty_world)
  = Returned
      ([regular_occurrence Demo.naive_call
          (DateTime (datetime_of 2026 11 4 14 0 0 None))]
       ++ [mkEvent "Standup" "" "" "" (datetime_of 2026 11 2 10 0 0 (Some utc))
             (Some (DateTime (datetime_of 2026 11 2 10 30 0 (Some utc)))) false]).
Proof.
  apply (@occurrences_in_definition_order Sample.library "call" "meeting" "both"
           [Demo.naive_call] [Sample.vtimezone; Demo.weekly_berlin]
           Demo.monday Demo.sunday_end Demo.empty_world);
    [reflexivity | reflexivity | reflexivity
     | vm_compute; reflexivity | vm_compute; reflexivity].
Defined.

(** A weekly entry without a start ends the run. *)
Lemma untimed_series_ends_the_run :
  exists log msg,
    @parse_ical_data (Demo.env (Ok [Demo.naive_call; Sample.series_without_start]))
      "BEGIN:VCALENDAR" Demo.monday Demo.sunday_end Demo.empty_world
    = (Exited 1,
       mkWorld [] [] ([] ++ log ++ [("Error parsing calendar: " ++ msg)%string])).
Proof.
  apply (@recurring_without_start_aborts_parse
           (Demo.env (Ok [Demo.naive_call; Sample.series_without_start]))
           "BEGIN:VCALENDAR" [Demo.naive_call] Sample.series_without_start []
           "FREQ=WEEKLY" Demo.monday Demo.sunday_end Demo.empty_world
           eq_refl eq_refl eq_refl eq_refl).
Defined.

(* ===================================================================== *)
(** ** The recurring branch: durations and ends *)
(* ===================================================================== *)

(** The weekly meeting of Berlin: one instance in the week, one occurrence. *)
Lemma weekly_meeting_listed_once :
  @process_component (Demo.env (Ok [])) Demo.monday Demo.sunday_end Demo.weekly_berlin
    (mkFrame [] Demo.empty_world)
  = (Returned tt,
     mkFrame
       ([] ++ map (recurring_occurrence "Standup" "" "" "")
                (combine [datetime_of 2026 11 2 10 0 0 (Some utc)]
                   [Some (DateTime (datetime_of 2026 11 2 10 30 0 (Some utc)))]))
       Demo.empty_world).
Proof.
  apply (@recurring_lists_every_instance (Demo.env (Ok [])) Demo.weekly_berlin
           Demo.monday Demo.sunday_end "FREQ=WEEKLY" (DateTime Demo.berlin_start)
           (Demo.mkRule (wall Demo.berlin_start) (7 * US_PER_DAY))
           [datetime_of 2026 11 2 10 0 0 (Some utc)] (Some (30 * US_PER_MINUTE))
           [Some (DateTime (datetime_of 2026 11 2 10 30 0 (Some utc)))]
           (mkFrame [] Demo.empty_world));
    try (match goal with |- _ = _ => vm_compute; reflexivity end).
  constructor; [vm_compute; reflexivity | constructor].
Defined.

(** The daily entry open to 9999-12-28: the end of the instance of Friday is
    out of range, the four instances before it are listed. *)
Lemma open_ended_daily_stops_at_friday :
  let day d := datetime_of 2026 11 d 0 0 0 (Some utc) in
  let till d := Some (DateTime (datetime_of 9999 12 d 0 0 0 (Some utc))) in
  @process_component (Demo.env (Ok [])) Demo.monday Demo.sunday_end Demo.open_ended_daily
    (mkFrame [] Demo.empty_world)
  = (Returned tt,
     extend (mkFrame [] Demo.empty_world)
       (map (recurring_occurrence "On call" "" "" "")
          (combine [day 2; day 3; day 4; day 5] [till 28; till 29; till 30; till 31]))
       [("Error processing recurring event: "
           ++ exn_str (OverflowError "date value out of range"))%string]).
Proof.
  intros day till.
  apply (@end_failure_keeps_earlier_instances (Demo.env (Ok [])) Demo.open_ended_daily
           Demo.monday Demo.sunday_end "FREQ=DAILY" (DateTime (day 2))
           (Demo.mkRule (wall (day 2)) US_PER_DAY)
           [day 2; day 3; day 4; day 5] (day 6) [day 7; day 8]
           (Some (wall (datetime_of 9999 12 28 0 0 0 None) - wall (day 2)))
           [till 28; till 29; till 30; till 31]
           (OverflowError "date value out of range") (mkFrame [] Demo.empty_world));
    try (match goal with |- _ = _ => vm_compute; reflexivity end).
  repeat (constructor; [vm_compute; reflexivity |]). constructor.
Defined.

Section Durations.

Context {E : Env}.


(** X11. An occurrence of a recurring definition has no end, the duration
    being absent or zero, or it ends the duration after its start, at a
    date-time in the zone of the start and not after 9999-12-31. *)
Theorem recurring_end_is_start_plus_duration c r lo hi f :
  c_rrule c = Some r ->
  exists new,
    events (snd (process_component lo hi c f)) = events f ++ new /\
    Forall (fun ev =>
              exists duration,
                original_duration c = Ok duration /\
                match ev_end ev with
                | None => duration = None \/ duration = Some 0
                | Some (Date _) => False
                | Some (DateTime e) =>
                    exists d, duration = Some d /\ d <> 0 /\
                              wall e = wall (ev_start ev) + d /\
                              tzinfo e = tzinfo (ev_start ev) /\
                              toordinal e <= MAXORDINAL
                end) new.
Proof.
  intros Hr.
  destruct (appends_run _ _ f (process_component_appends lo hi c))
    as [new [Hev [HP _]]].
  exists new. split; [exact Hev |].
  eapply Forall_impl; [| exact HP]. intros ev [_ H]. rewrite Hr in H.
  destruct H as [_ [duration [Hd He]]]. exists duration. split; [exact Hd |].
  unfold instance_end in He. destruct duration as [d|].
  - destruct (Z.eqb_spec d 0) as [-> | Hnz].
    + injection He as <-. auto.
    + unfold datetime_add in He.
      destruct ((MINORDINAL * US_PER_DAY <=? wall (ev_start ev) + d)
                && (wall (ev_start ev) + d <? (MAXORDINAL + 1) * US_PER_DAY)) eqn:Hb;
        [| discriminate].
      injection He as <-. exists d. repeat split; try assumption.
      apply andb_prop in Hb as [_ Hb]. apply Z.ltb_lt in Hb.
      unfold toordinal. cbn [wall].
      assert (HD : 0 < US_PER_DAY) by reflexivity.
      apply Z.lt_succ_r. apply Z.div_lt_upper_bound; lia.
  - injection He as <-. auto.
Qed.

End Durations.


(** The occurrence of the weekly meeting ends half an hour after its start. *)
Lemma weekly_meeting_ends_after_its_duration :
  exists new,
    events (snd (@process_component (Demo.env (Ok [])) Demo.monday Demo.sunday_end
                   Demo.weekly_berlin (mkFrame [] Demo.empty_world)))
    = [] ++ new /\
    Forall (fun ev =>
              exists duration,
                @original_duration Demo.weekly_berlin = Ok duration /\
                match ev_end ev with
                | None => duration = None \/ duration = Some 0
                | Some (Date _) => False
                | Some (DateTime e) =>
                    exists d, duration = Some d /\ d <> 0 /\
                              wall e = wall (ev_start ev) + d /\
                              tzinfo e = tzinfo (ev_start ev) /\
                              toordinal e <= MAXORDINAL
                end) new.
Proof.
  apply (@recurring_end_is_start_plus_duration (Demo.env (Ok [])) Demo.weekly_berlin
           "FREQ=WEEKLY" Demo.monday Demo.sunday_end (mkFrame [] Demo.empty_world) eq_refl).
Defined.

(* ===================================================================== *)
(** ** Formatting: the strings of an occurrence *)
(* ===================================================================== *)

Lemma every_append (P : ascii -> bool) (a b : string) :
  every P (a ++ b) = every P a && every P b.
Proof.
  induction a as [|c a IH]; simpl; [reflexivity |]. now rewrite IH, andb_assoc.
Qed.

Lemma every_impl (P Q : ascii -> bool) (s : string) :
  (forall c, P c = true -> Q c = true) -> every P s = true -> every Q s = true.
Proof.
  intros H. induction s as [|c s IH]; simpl; [reflexivity |].
  intros Hs. apply andb_prop in Hs as [Hc Hs]. now rewrite (H c Hc), IH.
Qed.

(** A text in which some character of [m] does not occur does not contain
    [m]. *)
Lemma contains_absent (P : ascii -> bool) (m s : string) :
  every P m = false -> every P s = true -> Str.contains m s = false.
Proof.
  intros Hm Hs. destruct (Str.contains m s) eqn:Hc; [| reflexivity].
  apply contains_iff in Hc as [a [b ->]].
  rewrite !every_append, Hm in Hs. now rewrite andb_false_r in Hs.
Qed.

(** [split] after a first segment in which the first character of the
    separator does not occur. *)
Lemma split_clean_prefix (c : ascii) (m' d r : string) :
  every (fun x => negb (Ascii.eqb x c)) d = true ->
  Str.split (String c m') (d ++ String c m' ++ r) = d :: Str.split (String c m') r.
Proof.
  intros Hd. unfold Str.split. induction d as [|x d IH].
  - cbn [String.append Str.split_go].
    assert (Hs : Str.startswith (String c m') (String c (m' ++ r)) = true)
      by (apply startswith_iff; now exists r).
    rewrite Hs. cbn [String.length Nat.pred]. rewrite split_go_skip.
    destruct (Str.split_go (String c m') r 0); reflexivity.
  - cbn [every] in Hd. apply andb_prop in Hd as [Hx Hd].
    cbn [String.append Str.split_go Str.startswith].
    apply negb_true_iff in Hx. rewrite Ascii.eqb_sym, Hx. cbn [andb].
    specialize (IH Hd). cbn [String.append] in IH.
    destruct (Str.split_go (String c m') (d ++ String c (m' ++ r)) 0) as [h t].
    destruct (Str.split_go (String c m') r 0) as [h' t'].
    injection IH as -> ->. reflexivity.
Qed.

Lemma digit_is_digit (n : Z) : is_digit (Str.digit n) = true.
Proof.
  unfold Str.digit. pose proof (Z.mod_pos_bound n 10 ltac:(lia)) as H.
  assert (Hk : exists k, (k < 10)%nat /\ Z.to_nat (n mod 10) = k)
    by (exists (Z.to_nat (n mod 10)); split; [lia | reflexivity]).
  destruct Hk as [k [Hk ->]].
  do 10 (destruct k as [|k]; [reflexivity |]). lia.
Qed.

Lemma digits_are_digits (fuel : nat) (n : Z) (acc : string) :
  every is_digit acc = true -> every is_digit (Str.digits fuel n acc) = true.
Proof.
  revert n acc. induction fuel as [|f IH]; intros n acc H; cbn [Str.digits]; [exact H |].
  assert (H' : every is_digit (String (Str.digit n) acc) = true)
    by (cbn [every]; now rewrite digit_is_digit, H).
  destruct (n / 10 =? 0); [exact H' | apply IH, H'].
Qed.

Lemma zfill_digits (width : nat) (n : Z) : every is_digit (Str.zfill width n) = true.
Proof.
  unfold Str.zfill, Str.decimal. rewrite every_append.
  rewrite digits_are_digits by reflexivity. rewrite andb_true_r.
  induction (width - String.length (Str.digits (S (Z.to_nat (Z.log2 n))) n ""))%nat
    as [|k IH]; simpl; [reflexivity | exact IH].
Qed.

Lemma iso_date_chars (v : dt) : every date_char (Fmt.iso_date v) = true.
Proof.
  unfold Fmt.iso_date, Fmt.ymd. destruct (Cal.ord2ymd (date_of v)) as [[y m] d].
  rewrite !every_append.
  assert (H : forall w n, every date_char (Str.zfill w n) = true).
  { intros w n. apply (every_impl is_digit); [| apply zfill_digits].
    intros c Hc. unfold date_char. now rewrite Hc. }
  rewrite !H. reflexivity.
Qed.

Lemma clock_text_chars (v : dt) : every time_char (clock_text v) = true.
Proof.
  unfold clock_text. rewrite !every_append.
  assert (H : forall w n, every time_char (Str.zfill w n) = true).
  { intros w n. apply (every_impl is_digit); [| apply zfill_digits].
    intros c Hc. unfold time_char. now rewrite Hc. }
  rewrite !H. reflexivity.
Qed.

Lemma iso_minute_parts (v : dt) :
  Fmt.iso_minute v = (Fmt.iso_date v ++ " " ++ clock_text v)%string.
Proof. unfold Fmt.iso_minute, clock_text. destruct (Fmt.clock v). reflexivity. Qed.

Lemma iso_minute_chars (v : dt) : every stamp_char (Fmt.iso_minute v) = true.
Proof.
  rewrite iso_minute_parts, !every_append.
  rewrite (every_impl date_char stamp_char _ ltac:(intros c H; unfold stamp_char; now rewrite H)
             (iso_date_chars v)).
  rewrite (every_impl time_char stamp_char _
             ltac:(intros c H; unfold stamp_char; rewrite H; now rewrite orb_true_r)
             (clock_text_chars v)).
  reflexivity.
Qed.

Lemma date_char_no_space (s : string) :
  every date_char s = true -> every (fun x => negb (Ascii.eqb x " ")) s = true.
Proof.
  apply every_impl. intros c H. unfold date_char, is_digit in H.
  destruct (Ascii.eqb_spec c " ") as [-> | _]; [discriminate H | reflexivity].
Qed.

Lemma time_char_no_space (s : string) :
  every time_char s = true -> Str.contains " " s = false.
Proof.
  intros H. apply (contains_absent time_char); [reflexivity | exact H].
Qed.

(** ['%Y-%m-%d %H:%M'] split at the space gives the date and the time. *)
Lemma split_iso_minute (v : dt) :
  Str.split " " (Fmt.iso_minute v) = [Fmt.iso_date v; clock_text v].
Proof.
  rewrite iso_minute_parts.
  rewrite (split_clean_prefix " " "" _ _ (date_char_no_space _ (iso_date_chars v))).
  rewrite (split_none _ _ (time_char_no_space _ (clock_text_chars v))). reflexivity.
Qed.

Lemma iso_minute_not_all_day (v : dt) :
  Str.contains " (All day)" (Fmt.iso_minute v) = false.
Proof.
  apply (contains_absent stamp_char); [reflexivity | apply iso_minute_chars].
Qed.

Lemma split_all_day (v : dt) :
  Str.contains " (All day)" (Fmt.iso_date v ++ " (All day)") = true /\
  Str.split " (All day)" (Fmt.iso_date v ++ " (All day)") = [Fmt.iso_date v; ""%string].
Proof.
  split.
  - apply contains_iff. exists (Fmt.iso_date v), ""%string. reflexivity.
  - pose proof (split_clean_prefix " " "(All day)" (Fmt.iso_date v) ""
                  (date_char_no_space _ (iso_date_chars v))) as H.
    cbn [String.append] in H. cbn [String.append]. rewrite H. reflexivity.
Qed.

Lemma date_str_of_format_event (ev : Event) :
  date_str (format_event ev) = Fmt.iso_date (DateTime (ev_start ev)).
Proof.
  unfold date_str, format_event. destruct (ev_all_day ev); cbn [Start].
  - destruct (split_all_day (DateTime (ev_start ev))) as [-> ->]. reflexivity.
  - rewrite iso_minute_not_all_day, split_iso_minute. reflexivity.
Qed.

Lemma time_str_of_format_event (ev : Event) :
  time_str (format_event ev) = Ok (time_line ev).
Proof.
  unfold time_str, time_line, format_event. destruct (ev_all_day ev); cbn [Start End_].
  - destruct (split_all_day (DateTime (ev_start ev))) as [-> _]. reflexivity.
  - rewrite iso_minute_not_all_day, split_iso_minute. cbn [index nth_error].
    destruct (ev_end ev) as [e|]; [| reflexivity].
    assert (Hne : String.eqb (Fmt.iso_minute e) "N/A" = false).
    { apply String.eqb_neq. intros H. pose proof (iso_minute_chars e) as Hc.
      rewrite H in Hc. discriminate Hc. }
    rewrite Hne, split_iso_minute. reflexivity.
Qed.

(** X12. Occurrences go under the day of their start: the keys that
    [save_to_markdown] reads back from the ['Start'] strings that
    [format_events] wrote, all-day or not, are the dates of the starts as
    ['%Y-%m-%d'], one for one. *)
Theorem day_keys_are_start_dates (occurrences : list Event) :
  map date_str (format_events occurrences)
  = map (fun ev => Fmt.iso_date (DateTime (ev_start ev))) occurrences.
Proof.
  unfold format_events. rewrite map_map. apply map_ext. apply date_str_of_format_event.
Qed.

(** X13. The time lines of the occurrences are always found in the strings
    that [format_events] wrote, without an [IndexError]: "All day" for an
    all-day occurrence, and otherwise the clock of the start, " - ", and the
    clock of the end, or "N/A" when there is no end. *)
Theorem time_lines_of_formatted (occurrences : list Event) :
  map time_str (format_events occurrences)
  = map (fun ev => Ok (time_line ev)) occurrences.
Proof.
  unfold format_events. rewrite map_map. apply map_ext. apply time_str_of_format_event.
Qed.

Example strings_of_the_call :
  let ev := regular_occurrence Demo.naive_call (DateTime (datetime_of 2026 11 4 14 0 0 None)) in
  Start (format_event ev) = "2026-11-04 14:00"%string /\
  date_str (format_event ev) = "2026-11-04"%string /\
  time_str (format_event ev) = Ok "14:00 - 15:00"%string.
Proof. repeat split; vm_compute; reflexivity. Qed.

(* ===================================================================== *)
(** ** Rendering: days and their events *)
(* ===================================================================== *)

Lemma events_of_add_event day k e by_day :
  events_of day (add_event k e by_day)
  = if String.eqb k day then events_of day by_day ++ [e] else events_of day by_day.
Proof.
  induction by_day as [|[d l] rest IH]; cbn [add_event events_of].
  - destruct (String.eqb k day); reflexivity.
  - destruct (String.eqb_spec d k) as [-> | Hdk]; cbn [events_of].
    + destruct (String.eqb k day); reflexivity.
    + rewrite IH. destruct (String.eqb_spec d day) as [-> | Hdd]; [| reflexivity].
      destruct (String.eqb_spec k day) as [-> | _]; [congruence | reflexivity].
Qed.

Lemma keys_add_event k e by_day k' :
  In k' (map fst (add_event k e by_day)) <-> k' = k \/ In k' (map fst by_day).
Proof.
  induction by_day as [|[d l] rest IH]; cbn [add_event map fst In].
  - intuition.
  - destruct (String.eqb_spec d k) as [-> | Hdk]; cbn [map fst In].
    + intuition.
    + rewrite IH. intuition.
Qed.

Lemma keys_add_event_nodup k e by_day :
  NoDup (map fst by_day) -> NoDup (map fst (add_event k e by_day)).
Proof.
  induction by_day as [|[d l] rest IH]; cbn [add_event map fst]; intros H.
  - constructor; [intros [] | constructor].
  - destruct (String.eqb_spec d k) as [-> | Hdk]; cbn [map fst]; [exact H |].
    inversion H as [|? ? Hin Hnd]; subst. constructor; [| apply IH, Hnd].
    rewrite keys_add_event. intros [-> | Hk]; [congruence | contradiction].
Qed.

Lemma group_fold events by_day :
  let grouped :=
    fold_left (fun by_day event => add_event (date_str event) event by_day) events by_day in
  (forall day,
     events_of day grouped
     = events_of day by_day ++ filter (fun e => String.eqb (date_str e) day) events) /\
  (NoDup (map fst by_day) -> NoDup (map fst grouped)) /\
  (forall d, In d (map fst grouped)
             <-> In d (map fst by_day) \/ exists e, In e events /\ date_str e = d).
Proof.
  revert by_day. induction events as [|e l IH]; intros by_day; cbn [fold_left filter].
  - split; [| split].
    + intros day. now rewrite app_nil_r.
    + auto.
    + intros d. split; [tauto | intros [H | [e [[] _]]]; exact H].
  - destruct (IH (add_event (date_str e) e by_day)) as [H1 [H2 H3]].
    split; [| split].
    + intros day. rewrite H1, events_of_add_event.
      destruct (String.eqb (date_str e) day); [now rewrite <- app_assoc | reflexivity].
    + intros H. apply H2, keys_add_event_nodup, H.
    + intros d. rewrite H3, keys_add_event. split.
      * intros [[-> | H] | [x [Hx Hd]]].
        -- right. exists e. split; [now left | reflexivity].
        -- now left.
        -- right. exists x. split; [now right | exact Hd].
      * intros [H | [x [[-> | Hx] Hd]]].
        -- left. now right.
        -- left. left. now symmetry.
        -- right. exists x. split; assumption.
Qed.

(** X14. Under a day the document lists the events whose key is that day,
    all of them and no other, in the order in which they were given. *)
Theorem day_lists_its_events (events : list Formatted) (day : string) :
  events_of day (group_by_day events)
  = filter (fun e => String.eqb (date_str e) day) events.
Proof. unfold group_by_day. now rewrite (proj1 (group_fold events [])). Qed.

Lemma insert_sorted_perm k l : Permutation (insert_sorted k l) (k :: l).
Proof.
  induction l as [|x l IH]; cbn [insert_sorted]; [reflexivity |].
  destruct (String.leb k x); [reflexivity |].
  rewrite IH. apply perm_swap.
Qed.

Lemma insert_sorted_sorted k l :
  Sorted (fun a b => String.leb a b = true) l ->
  Sorted (fun a b => String.leb a b = true) (insert_sorted k l).
Proof.
  induction l as [|x l IH]; cbn [insert_sorted]; intros H.
  - constructor; constructor.
  - destruct (String.leb k x) eqn:Hk.
    + constructor; [exact H | constructor; exact Hk].
    + inversion H as [|? ? Hs Hh]; subst. constructor; [apply IH, Hs |].
      assert (Hxk : String.leb x k = true)
        by (destruct (String.leb_total k x) as [Hc | Hc]; [congruence | exact Hc]).
      destruct l as [|y l]; cbn [insert_sorted].
      * constructor. exact Hxk.
      * destruct (String.leb k y); constructor; [exact Hxk |].
        inversion Hh; subst. assumption.
Qed.

Lemma sorted_perm l : Permutation (sorted l) l.
Proof.
  induction l as [|x l IH]; cbn [sorted fold_right]; [reflexivity |].
  rewrite insert_sorted_perm. now constructor.
Qed.

Lemma sorted_sorted l : Sorted (fun a b => String.leb a b = true) (sorted l).
Proof.
  unfold sorted. induction l as [|x l IH]; cbn [fold_right];
    [constructor | apply insert_sorted_sorted, IH].
Qed.

(** X15. The days of the document come in ascending order and each comes
    once; they are the keys of the events, no more and no less. *)
Theorem days_ascending_once (events : list Formatted) :
  let days := sorted (map fst (group_by_day events)) in
  Sorted (fun a b => String.leb a b = true) days /\
  NoDup days /\
  forall d, In d days <-> exists e, In e events /\ date_str e = d.
Proof.
  intros days. subst days. destruct (group_fold events []) as [_ [Hnd Hin]].
  fold (group_by_day events) in Hnd, Hin. split; [| split].
  - apply sorted_sorted.
  - apply (Permutation_NoDup (l := map fst (group_by_day events))).
    + symmetry. apply sorted_perm.
    + apply Hnd. constructor.
  - intros d. split.
    + intros H. apply (Permutation_in _ (sorted_perm _)) in H.
      apply Hin in H as [[] | H]. exact H.
    + intros H. apply (Permutation_in _ (Permutation_sym (sorted_perm _))).
      apply Hin. now right.
Qed.

Example days_of_three_events :
  let f day := mkFormatted "" (day ++ " 09:00") "N/A" "" "" "" in
  sorted (map fst (group_by_day [f "2026-11-05"; f "2026-11-02"; f "2026-11-05"]))
  = ["2026-11-02"; "2026-11-05"]%string.
Proof. reflexivity. Qed.

(* ===================================================================== *)
(** ** Rendering: the file *)
(* ===================================================================== *)

Lemma remove_remove p f : Files.remove p (Files.remove p f) = Files.remove p f.
Proof.
  induction f as [|[q c] f IH]; cbn [Files.remove]; [reflexivity |].
  destruct (String.eqb q p) eqn:H; [exact IH |].
  cbn [Files.remove]. now rewrite H, IH.
Qed.

Lemma read_remove_other p q f : p <> q -> Files.read q (Files.remove p f) = Files.read q f.
Proof.
  intros Hpq. induction f as [|[x c] f IH]; cbn [Files.remove Files.read]; [reflexivity |].
  destruct (String.eqb_spec x p) as [-> | Hx].
  - rewrite IH. destruct (String.eqb_spec p q); [contradiction | reflexivity].
  - cbn [Files.read]. now rewrite IH.
Qed.

Lemma read_put_other p q c f : p <> q -> Files.read q (Files.put p c f) = Files.read q f.
Proof.
  intros Hpq. unfold Files.put. cbn [Files.read].
  destruct (String.eqb_spec p q); [contradiction | now apply read_remove_other].
Qed.

Lemma read_put p c f : Files.read p (Files.put p c f) = Some c.
Proof. unfold Files.put. cbn [Files.read]. now rewrite String.eqb_refl. Qed.

Section Rendering.

Context {E : Env}.

Variables (output : string) (rest : list (string * string)).
Hypothesis rest_clean : Files.remove output rest = rest.

Lemma write_to_open text w c :
  fs w = (output, c) :: rest ->
  write output text w
  = (Returned tt, mkWorld ((output, (c ++ text)%string) :: rest) (stdout w) (stderr w)).
Proof.
  intros H. unfold write, modify. rewrite H. cbn [Files.read]. rewrite String.eqb_refl.
  unfold Files.put. cbn [Files.remove]. now rewrite String.eqb_refl, rest_clean.
Qed.

(** *** Whatever happens *)

Lemma writes_ret {A} (a : A) : writes_to output rest (ret a).
Proof.
  intros w c H. exists ""%string. cbn. rewrite append_nil_r. repeat split; [exact H |].
  discriminate.
Qed.

Lemma writes_lift {A} (r : result A) : writes_to output rest (lift r).
Proof.
  destruct r as [a | e]; [apply writes_ret |].
  intros w c H. exists ""%string. cbn. rewrite append_nil_r. repeat split; [exact H |].
  discriminate.
Qed.

Lemma writes_write text : writes_to output rest (write output text).
Proof.
  intros w c H. exists text. rewrite (write_to_open _ _ _ H). cbn.
  repeat split. discriminate.
Qed.

Lemma writes_print line : writes_to output rest (print line).
Proof.
  intros w c H. exists ""%string. cbn. rewrite append_nil_r. repeat split; [exact H |].
  discriminate.
Qed.

Lemma writes_bind {A B} (m : M World A) (k : A -> M World B) :
  writes_to output rest m -> (forall a, writes_to output rest (k a)) ->
  writes_to output rest (bind m k).
Proof.
  intros Hm Hk w c H. destruct (Hm w c H) as [c1 [H1 [E1 X1]]]. unfold bind.
  destruct (m w) as [[a | e | code] w1]; cbn [fst snd] in *.
  - destruct (Hk a w1 _ H1) as [c2 [H2 [E2 X2]]].
    exists (c1 ++ c2)%string. rewrite <- append_assoc. repeat split; [exact H2 | | exact X2].
    now rewrite E2.
  - exists c1. repeat split; [exact H1 | exact E1 | discriminate].
  - now destruct (X1 code).
Qed.

Lemma writes_for {A} (l : list A) (body : A -> M World unit) :
  (forall x, writes_to output rest (body x)) -> writes_to output rest (for_each l body).
Proof.
  intros Hb. induction l as [|x l IH]; cbn [for_each].
  - apply writes_ret.
  - apply writes_bind; [apply Hb | intros _; exact IH].
Qed.

Lemma writes_write_event event : writes_to output rest (write_event output event).
Proof.
  unfold write_event, write_when.
  apply writes_bind; [apply writes_lift | intros t].
  repeat (apply writes_bind; [| intros _]); try apply writes_write.
  - destruct (negb _); [apply writes_write | apply writes_ret].
  - destruct (negb _); [apply writes_write | apply writes_ret].
  - apply writes_for. intros x. apply writes_write.
Qed.

Lemma writes_write_day by_day day : writes_to output rest (write_day output by_day day).
Proof.
  unfold write_day.
  apply writes_bind; [apply writes_lift | intros o].
  apply writes_bind; [apply writes_write | intros _].
  apply writes_for. intros x. apply writes_write_event.
Qed.

(** *** When nothing raises *)

Lemma renders_write text : renders output rest (write output text).
Proof. intros w c H. exists text. apply write_to_open, H. Qed.

Lemma renders_ret : renders output rest (ret tt).
Proof.
  intros [f o e] c H. cbn in H. subst f. exists ""%string. cbn. now rewrite append_nil_r.
Qed.

Lemma renders_then (m k : M World unit) :
  renders output rest m -> renders output rest k ->
  renders output rest (bind m (fun _ => k)).
Proof.
  intros Hm Hk w c H. destruct (Hm w c H) as [c1 H1]. unfold bind. rewrite H1.
  destruct (Hk (mkWorld ((output, (c ++ c1)%string) :: rest) (stdout w) (stderr w))
              (c ++ c1)%string eq_refl) as [c2 H2].
  exists (c1 ++ c2)%string. rewrite <- append_assoc. exact H2.
Qed.

Lemma renders_for {A} (l : list A) (body : A -> M World unit) :
  (forall x, In x l -> renders output rest (body x)) ->
  renders output rest (for_each l body).
Proof.
  induction l as [|x l IH]; intros Hb; cbn [for_each].
  - apply renders_ret.
  - apply renders_then; [apply Hb; now left | apply IH; intros y Hy; apply Hb; now right].
Qed.

Lemma renders_write_event event t :
  time_str event = Ok t -> renders output rest (write_event output event).
Proof.
  intros Ht. unfold write_event, write_when. rewrite Ht. cbn [lift]. rewrite bind_ret.
  repeat (apply renders_then); try apply renders_write.
  - destruct (negb _); [apply renders_write | apply renders_ret].
  - destruct (negb _); [apply renders_write | apply renders_ret].
  - apply renders_for. intros x _. apply renders_write.
Qed.

Lemma renders_write_day by_day day o :
  strptime_date day = Ok o ->
  (forall e, In e (events_of day by_day) -> exists t, time_str e = Ok t) ->
  renders output rest (write_day output by_day day).
Proof.
  intros Hd He. unfold write_day. rewrite Hd. cbn [lift]. rewrite bind_ret.
  apply renders_then; [apply renders_write |].
  apply renders_for. intros e Hin. destruct (He e Hin) as [t Ht].
  apply (renders_write_event e t Ht).
Qed.

End Rendering.

Section Save.

Context {E : Env}.

Lemma try_except_run {S} (body : M S unit) (handler : exn -> M S unit) (s : S) :
  try_except body handler s
  = match body s with
    | (Returned tt, s') => (Returned tt, s')
    | (Raised e, s') => handler e s'
    | (Exited code, s') => (Exited code, s')
    end.
Proof. unfold try_except. destruct (body s) as [[[] | e | code] s']; reflexivity. Qed.

Lemma bind_returned {S A B} (m : M S A) (k : A -> M S B) (s : S) (a : A) (s' : S) :
  m s = (Returned a, s') -> bind m k s = k a s'.
Proof. intros H. unfold bind. now rewrite H. Qed.

Lemma bind_eprint {B} (line : string) (k : unit -> M World B) (w : World) :
  bind (eprint line) k w = k tt (mkWorld (fs w) (stdout w) (stderr w ++ [line])).
Proof. reflexivity. Qed.

Lemma bind_print {B} (line : string) (k : unit -> M World B) (w : World) :
  bind (print line) k w = k tt (mkWorld (fs w) (stdout w ++ [line]) (stderr w)).
Proof. reflexivity. Qed.

(** How [save_to_markdown] ends on a list that is not empty. *)
Lemma save_run event events output w :
  if can_open output
  then exists content out,
         (save_to_markdown (event :: events) output w
          = (Returned tt,
             mkWorld (Files.put output (document_title ++ content) (fs w)) out (stderr w)))
         \/ (exists msg,
               save_to_markdown (event :: events) output w
               = (Exited 1,
                  mkWorld (Files.put output (document_title ++ content) (fs w)) out
                    (stderr w ++ [("Error saving to Markdown: " ++ msg)%string])))
  else exists msg,
         save_to_markdown (event :: events) output w
         = (Exited 1,
            mkWorld (fs w) (stdout w)
              (stderr w ++ [("Error saving to Markdown: " ++ msg)%string])).
Proof.
  unfold save_to_markdown. rewrite try_except_run. cbv zeta.
  destruct (can_open output) eqn:Hcan.
  - set (rest := Files.remove output (fs w)).
    assert (Hrest : Files.remove output rest = rest) by apply remove_remove.
    set (w0 := mkWorld (Files.put output "" (fs w)) (stdout w) (stderr w)).
    assert (Hopen : open_w output w = (Returned tt, w0))
      by (unfold open_w; rewrite Hcan; reflexivity).
    rewrite (bind_returned _ _ _ _ _ Hopen).
    erewrite (bind_returned _ _ _ _ _ (write_to_open output rest Hrest _ w0 ""%string eq_refl)).
    match goal with
    | |- context [bind ?m ?k ?w1] =>
        assert (H : writes_to output rest (bind m k));
        [| destruct (H w1 _ eq_refl) as [c' [Hfs [Herr Hx]]];
           destruct (bind m k w1) as [[[] | e | code] w2] ]
    end.
    + apply writes_bind;
        [apply writes_for; intros d; apply (writes_write_day output rest Hrest) | intros _].
      apply writes_bind; [apply (writes_write output rest Hrest) | intros _].
      apply writes_print.
    + clear H. cbn [fst snd] in *. exists c', (stdout w2). left.
      destruct w2 as [f2 o2 e2]. cbn [fs stdout stderr] in *. subst f2 e2. reflexivity.
    + clear H. cbn [fst snd] in *. exists c', (stdout w2). right. exists (exn_str e).
      unfold bind, eprint, modify, sys_exit.
      destruct w2 as [f2 o2 e2]. cbn [fs stdout stderr] in *. subst f2 e2. reflexivity.
    + now destruct (Hx code).
  - exists "cannot open the output file"%string.
    unfold bind at 1, open_w. rewrite Hcan. reflexivity.
Qed.

(** X16. [save_to_markdown] on events lets no exception out: it returns, or
    it prints "Error saving to Markdown: ..." on the error stream and exits
    with status 1. It changes no file but the output file. When that file
    can be opened its earlier content is gone and it begins with the title,
    also when the rendering fails later; when it can not be opened no file
    is changed. *)
Theorem save_touches_only_the_output events output w :
  events <> [] ->
  let run := save_to_markdown events output w in
  (fst run = Returned tt \/
   (fst run = Exited 1 /\
    exists msg, stderr (snd run)
                = stderr w ++ [("Error saving to Markdown: " ++ msg)%string])) /\
  (forall p, p <> output -> Files.read p (fs (snd run)) = Files.read p (fs w)) /\
  (if can_open output
   then exists content,
          Files.read output (fs (snd run)) = Some (document_title ++ content)%string
   else fs (snd run) = fs w /\ fst run = Exited 1).
Proof.
  intros Hne run. subst run. destruct events as [|event events]; [congruence |].
  pose proof (save_run event events output w) as H.
  destruct (can_open output).
  - destruct H as [content [out [H | [msg H]]]]; rewrite H; cbn [fst snd fs stderr].
    + split; [now left |]. split.
      * intros p Hp. apply read_put_other. congruence.
      * exists content. apply read_put.
    + split; [right; split; [reflexivity | now exists msg] |]. split.
      * intros p Hp. apply read_put_other. congruence.
      * exists content. apply read_put.
  - destruct H as [msg H]. rewrite H. cbn [fst snd fs stderr].
    split; [right; split; [reflexivity | now exists msg] |]. auto.
Qed.

Lemma save_outcome events output w :
  (fst (save_to_markdown events output w) = Returned tt \/
   fst (save_to_markdown events output w) = Exited 1).
Proof.
  destruct events as [|event events]; [left; reflexivity |].
  pose proof (save_run event events output w) as H.
  destruct (can_open output).
  - destruct H as [content [out [H | [msg H]]]]; rewrite H; auto.
  - destruct H as [msg H]. rewrite H. auto.
Qed.

Lemma parse_outcome text lo hi w :
  (exists occurrences, fst (parse_ical_data text lo hi w) = Returned occurrences) \/
  fst (parse_ical_data text lo hi w) = Exited 1.
Proof.
  unfold parse_ical_data, parse_body. rewrite try_except_run.
  destruct (from_ical text) as [calendar | e]; cbn [lift].
  - rewrite bind_ret.
    destruct (appends_for (fun _ => True) calendar (process_component lo hi)) as
      [r [new [log [Hx [_ Hrun]]]]].
    { intros x. eapply appends_weaken; [| apply process_component_appends]. auto. }
    rewrite Hrun. destruct r as [[] | e | code].
    + left. eexists. reflexivity.
    + right. reflexivity.
    + now destruct (Hx code).
  - right. rewrite bind_raise. reflexivity.
Qed.

(** X17. The status of a run is 0 or 1, and it is 0 only when a file is
    there at the output path at the end of the run. *)
Theorem status_zero_needs_the_document url output to_stdout w :
  let run := main url output to_stdout w in
  (exit_status (fst run) = 0 \/ exit_status (fst run) = 1) /\
  (exit_status (fst run) = 0 -> Files.exists_ output (fs (snd run)) = true).
Proof.
  intros run. subst run.
  remember (main url output to_stdout w) as run eqn:Hrun.
  unfold main in Hrun. rewrite bind_eprint in Hrun. unfold fetch_calendar in Hrun.
  destruct (requests_get url) as [text | e].
  2: { destruct e; unfold bind, raise, eprint, modify, sys_exit in Hrun; subst run;
       cbn [fst snd exit_status]; (split; [auto | discriminate]). }
  rewrite bind_ret, bind_eprint in Hrun.
  destruct get_current_week_range as [lo hi].
  rewrite bind_eprint, bind_print in Hrun.
  unfold bind at 1 in Hrun.
  match type of Hrun with
  | context [parse_ical_data text lo hi ?w1] =>
      destruct (parse_outcome text lo hi w1) as [[occurrences Hp] | Hp];
      destruct (parse_ical_data text lo hi w1) as [r w2]
  end; cbn [fst] in Hp; subst r.
  2: { subst run. cbn [fst snd exit_status]. split; [auto | discriminate]. }
  rewrite bind_eprint in Hrun.
  unfold bind at 1 in Hrun.
  match type of Hrun with
  | context [save_to_markdown ?l output ?w3] =>
      destruct (save_outcome l output w3) as [Hs | Hs];
      destruct (save_to_markdown l output w3) as [r w4]
  end; cbn [fst] in Hs; subst r.
  2: { subst run. cbn [fst snd exit_status]. split; [auto | discriminate]. }
  unfold bind at 1, get_world in Hrun.
  destruct (Files.exists_ output (fs w4)) eqn:Hex; cbn [negb] in Hrun.
  - destruct to_stdout; unfold print, modify in Hrun; subst run;
      cbn [fst snd fs exit_status]; auto.
  - unfold bind, eprint, modify, sys_exit in Hrun. subst run. cbn [fst snd exit_status].
    split; [auto | discriminate].
Qed.

(** How [save_to_markdown] ends when the file can be opened, every day
    can be read back and every event has its time line. *)
Lemma save_renders event events output w :
  can_open output = true ->
  Forall (fun e => (exists t, time_str e = Ok t) /\
                   exists o, strptime_date (date_str e) = Ok o) (event :: events) ->
  exists body,
    save_to_markdown (event :: events) output w
    = (Returned tt,
       mkWorld
         (Files.put output
            (document_title ++ body
               ++ document_footer (List.length (event :: events)))%string (fs w))
         (stdout w ++ [("Events saved to " ++ output)%string]) (stderr w)).
Proof.
  intros Hcan Hall. rewrite Forall_forall in Hall.
  unfold save_to_markdown. rewrite try_except_run. cbv zeta.
  set (rest := Files.remove output (fs w)).
  assert (Hrest : Files.remove output rest = rest) by apply remove_remove.
  set (w0 := mkWorld (Files.put output "" (fs w)) (stdout w) (stderr w)).
  assert (Hopen : open_w output w = (Returned tt, w0))
    by (unfold open_w; rewrite Hcan; reflexivity).
  rewrite (bind_returned _ _ _ _ _ Hopen).
  erewrite (bind_returned _ _ _ _ _ (write_to_open output rest Hrest _ w0 ""%string eq_refl)).
  set (grouped := group_by_day (event :: events)).
  assert (Hdays : renders output rest
                    (for_each (sorted (map fst grouped)) (write_day output grouped))).
  { destruct (group_fold (event :: events) []) as [Hof [_ Hin]].
    fold (group_by_day (event :: events)) in Hof, Hin. fold grouped in Hof, Hin.
    apply renders_for. intros d Hd.
    apply (Permutation_in _ (sorted_perm _)) in Hd. apply Hin in Hd as [[] | [e [He <-]]].
    destruct (proj2 (Hall e He)) as [o Ho].
    apply (renders_write_day output rest Hrest grouped (date_str e) o Ho).
    intros x Hx. rewrite Hof in Hx. cbn [events_of app] in Hx.
    apply filter_In in Hx as [Hx _]. exact (proj1 (Hall x Hx)). }
  match goal with
  | |- context [bind _ _ ?w1] => destruct (Hdays w1 _ eq_refl) as [body Hbody]
  end.
  rewrite (bind_returned _ _ _ _ _ Hbody).
  match goal with
  | |- context [bind (write output ?t) ?k ?w1] =>
      rewrite (bind_returned _ _ _ _ _ (write_to_open output rest Hrest t w1 _ eq_refl))
  end.
  exists body. unfold print, modify. cbn [fs stdout stderr].
  unfold Files.put, document_title, document_footer. fold rest.
  cbn [String.append]. rewrite <- !append_assoc. reflexivity.
Qed.

(** X18. When the feed is fetched and parsed, at least one occurrence lies
    in the week, the output file can be opened and the days of the
    occurrences can be read back, the run ends with status 0: the output file
    holds the title, the days, and the footer with the number of
    occurrences, no other file is changed, and with [--stdout] the last thing
    printed is that document. *)
Theorem run_with_occurrences url output to_stdout text occurrences w :
  requests_get url = Ok text ->
  (forall w',
     fst (parse_ical_data text (fst get_current_week_range) (snd get_current_week_range) w')
     = Returned occurrences) ->
  occurrences <> [] ->
  can_open output = true ->
  Forall (fun ev => exists o,
            strptime_date (Fmt.iso_date (DateTime (ev_start ev))) = Ok o) occurrences ->
  let run := main url output to_stdout w in
  fst run = Returned tt /\
  (exists body,
     Files.read output (fs (snd run))
     = Some (document_title ++ body ++ document_footer (List.length occurrences))%string /\
     (to_stdout = true ->
      last (stdout (snd run)) ""%string
      = (document_title ++ body ++ document_footer (List.length occurrences))%string)) /\
  (forall p, p <> output -> Files.read p (fs (snd run)) = Files.read p (fs w)).
Proof.
  intros Hget Hparse Hne Hcan Hdates run. subst run.
  remember (main url output to_stdout w) as run eqn:Hrun.
  unfold main in Hrun. rewrite bind_eprint in Hrun. unfold fetch_calendar in Hrun.
  rewrite Hget in Hrun. rewrite bind_ret, bind_eprint in Hrun.
  destruct get_current_week_range as [lo hi]. cbn [fst snd] in Hparse.
  rewrite bind_eprint, bind_print in Hrun.
  unfold bind at 1 in Hrun.
  match type of Hrun with
  | context [parse_ical_data text lo hi ?w1] =>
      destruct (parse_prints_errors_only text lo hi w1) as [log Hw];
      specialize (Hparse w1);
      destruct (parse_ical_data text lo hi w1) as [r w2]
  end.
  cbn [fst snd] in Hparse, Hw. subst r w2. cbn [fs stdout stderr] in Hrun.
  rewrite bind_eprint in Hrun. cbn [fs stdout stderr] in Hrun.
  destruct occurrences as [|ev l]; [congruence |].
  cbv zeta in Hrun. unfold bind at 1 in Hrun. cbn [format_events map] in Hrun.
  match type of Hrun with
  | context [save_to_markdown (?e :: ?es) output ?w3] =>
      destruct (save_renders e es output w3 Hcan) as [body Hsave]
  end.
  { fold (format_events l). change (format_event ev :: format_events l)
      with (format_events (ev :: l)).
    unfold format_events. apply Forall_map. eapply Forall_impl; [| exact Hdates].
    intros x [o Ho]. split.
    - eexists. apply time_str_of_format_event.
    - exists o. now rewrite date_str_of_format_event. }
  rewrite Hsave in Hrun.
  unfold bind at 1, get_world in Hrun. cbn [fs stdout stderr] in Hrun.
  unfold Files.exists_ in Hrun. rewrite read_put in Hrun. cbn [negb] in Hrun.
  cbn [List.length] in *. rewrite length_map in Hrun.
  destruct to_stdout; unfold print, modify in Hrun; subst run;
    cbn [fst snd fs stdout stderr].
  - split; [reflexivity |]. split.
    + exists body. split; [apply read_put |]. intros _. apply last_last.
    + intros p Hp. apply read_put_other. congruence.
  - split; [reflexivity |]. split.
    + exists body. split; [apply read_put | discriminate].
    + intros p Hp. apply read_put_other. congruence.
Qed.

End Save.

(** The call of Wednesday, saved from a process that has the document of an
    earlier week: the file is written anew. *)
Lemma saving_the_call :
  let events := format_events
                  [regular_occurrence Demo.naive_call
                     (DateTime (datetime_of 2026 11 4 14 0 0 None))] in
  let run := @save_to_markdown (Demo.env (Ok [])) events Demo.default_output
               Demo.stale_world in
  (fst run = Returned tt \/
   (fst run = Exited 1 /\
    exists msg, stderr (snd run)
                = stderr Demo.stale_world ++ [("Error saving to Markdown: " ++ msg)%string])) /\
  (forall p, p <> Demo.default_output ->
             Files.read p (fs (snd run)) = Files.read p (fs Demo.stale_world)) /\
  (exists content,
     Files.read Demo.default_output (fs (snd run))
     = Some (@document_title (Demo.env (Ok [])) ++ content)%string).
Proof.
  intros events run.
  apply (@save_touches_only_the_output (Demo.env (Ok [])) events Demo.default_output
           Demo.stale_world).
  discriminate.
Defined.

(** The run on the feed of the call: status 0 and the document on the
    standard output. *)
Lemma run_on_the_call :
  let env := Demo.env (Ok [Demo.naive_call]) in
  let run := @main env Demo.feed_url Demo.default_output true Demo.stale_world in
  fst run = Returned tt /\
  (exists body,
     Files.read Demo.default_output (fs (snd run))
     = Some (@document_title env ++ body ++ @document_footer env 1)%string /\
     (true = true ->
      last (stdout (snd run)) ""%string
      = (@document_title env ++ body ++ @document_footer env 1)%string)) /\
  (forall p, p <> Demo.default_output ->
             Files.read p (fs (snd run)) = Files.read p (fs Demo.stale_world)).
Proof.
  intros env run.
  apply (@run_with_occurrences env Demo.feed_url Demo.default_output true
           "BEGIN:VCALENDAR"
           [regular_occurrence Demo.naive_call
              (DateTime (datetime_of 2026 11 4 14 0 0 None))]
           Demo.stale_world).
  - reflexivity.
  - intros w'. vm_compute. reflexivity.
  - discriminate.
  - reflexivity.
  - constructor; [| constructor]. exists (Cal.ymd2ord 2026 11 4). vm_compute. reflexivity.
Defined.

Example document_of_the_call :
  Files.read Demo.default_output
    (fs (snd (@main (Demo.env (Ok [Demo.naive_call])) Demo.feed_url Demo.default_output
                false Demo.stale_world)))
  = Some ("# Calendar Events: November 02 - November 08, 2026" ++ nl ++ nl
          ++ "## Wednesday, November 04" ++ nl ++ nl
          ++ "### Call" ++ nl ++ nl
          ++ "**Time:** 14:00 - 15:00" ++ nl ++ nl
          ++ "---" ++ nl ++ nl
          ++ nl ++ nl ++ "_Generated on 2026-11-03 at 08:30 · 1 events_")%string.
Proof. vm_compute. reflexivity. Qed.

(* ===================================================================== *)
(** ** Rendering: what the cut description never holds *)
(* ===================================================================== *)

Lemma first_at_prefix m pre s : first_at m pre s -> Str.startswith pre s = true.
Proof. intros [[post ->] _]. apply startswith_iff. now exists (m ++ post)%string. Qed.

Lemma first_at_free m pre s :
  m <> ""%string -> first_at m pre s -> Str.contains m pre = false.
Proof.
  intros Hm [[post Hs] Hmin]. destruct (Str.contains m pre) eqn:Hc; [| reflexivity].
  apply contains_iff in Hc as [a [b Hpre]].
  assert (H : s = (a ++ m ++ (b ++ m ++ post))%string)
    by (rewrite Hs, Hpre, !append_assoc; reflexivity).
  apply Hmin in H. rewrite Hpre, !length_append in H.
  destruct m as [|c m]; [congruence | cbn [String.length] in H; lia].
Qed.

Lemma contains_of_prefix m p s :
  Str.startswith p s = true -> Str.contains m p = true -> Str.contains m s = true.
Proof.
  intros Hp Hc. apply startswith_iff in Hp as [r ->].
  apply contains_iff in Hc as [a [b ->]]. apply contains_iff.
  exists a, (b ++ r)%string. now rewrite !append_assoc.
Qed.

(** X19. What is shown of a description is always a beginning of it; it
    never contains the Teams marker, and it never contains the marker at
    which the description was cut. *)
Theorem shown_description_free_of_its_marker (d : string) :
  Str.startswith (cut_description d) d = true /\
  Str.contains TEAMS (cut_description d) = false /\
  match marker_in_force d with
  | Some m => Str.contains m (cut_description d) = false
  | None => True
  end.
Proof.
  assert (H : match marker_in_force d with
              | Some m => m <> ""%string /\ first_at m (cut_description d) d
              | None => cut_description d = d
              end).
  { unfold marker_in_force, cut_description.
    destruct (Str.contains TEAMS d) eqn:H1.
    { split; [discriminate | apply cut_at_first; [discriminate | exact H1]]. }
    destruct (Str.contains ZOOM d) eqn:H2.
    { split; [discriminate | apply cut_at_first; [discriminate | exact H2]]. }
    destruct (Str.contains ZOOM_DE d) eqn:H3.
    { split; [discriminate | apply cut_at_first; [discriminate | exact H3]]. }
    reflexivity. }
  assert (Hpre : Str.startswith (cut_description d) d = true).
  { destruct (marker_in_force d) as [m|].
    - exact (first_at_prefix m _ _ (proj2 H)).
    - rewrite H. apply startswith_iff. exists ""%string. now rewrite append_nil_r. }
  split; [exact Hpre |]. split.
  - destruct (Str.contains TEAMS d) eqn:Ht.
    + unfold marker_in_force in H. rewrite Ht in H. destruct H as [Hm H].
      exact (first_at_free _ _ _ Hm H).
    + destruct (Str.contains TEAMS (cut_description d)) eqn:Hc; [| reflexivity].
      rewrite (contains_of_prefix _ _ _ Hpre Hc) in Ht. discriminate.
  - destruct (marker_in_force d) as [m|]; [| exact I]. destruct H as [Hm H].
    exact (first_at_free _ _ _ Hm H).
Qed.
